(** * Metamuse backend: the authentication, session and OTP core

    A shallow embedding of [auth.controller.ts], [auth.service.ts] and
    [auth.schema.ts], with the properties of the token-rotation and
    one-time-passcode flows proved over it.

    Documents are JavaScript objects: finite maps from property names to
    values, in which an absent key reads as [undefined].  A collection is
    the list of its documents in insertion order.  Collaborators whose
    code lives outside these three files (the password hasher, the JWT
    library, the users service, ECMAScript's string conversions) are
    section variables, so every statement holds for all of them. *)

From Stdlib Require Import ZArith Ascii String.
From stdpp Require Import base option list gmap strings pretty.

Local Open Scope string_scope.
Local Open Scope Z_scope.

(** ** JavaScript values *)

Module JS.

(** Objects carry an instance tag: two references denote the same object
    exactly when tag and content coincide. *)
Inductive val :=
| VBool (b : bool)
| VNum (n : Z)
| VStr (s : string)
| VDate (ref : nat) (ms : Z)
| VOid (ref : nat) (hex : string).

#[export] Instance val_eq_dec : EqDecision val.
Proof. solve_decision. Defined.

(** A plain object; [d !! k = None] is [d.k === undefined]. *)
Abbreviation doc := (gmap string val).

(** ToBoolean. *)
Definition truthy (v : option val) : bool :=
  match v with
  | None => false
  | Some (VBool b) => b
  | Some (VNum n) => negb (n =? 0)
  | Some (VStr s) => negb (bool_decide (s = ""))
  | Some (VDate _ _) | Some (VOid _ _) => true
  end.

(** Truthiness of an optional string argument. *)
Definition truthy_str (s : option string) : bool := truthy (VStr <$> s).

Section Coercions.
(** [StringToNumber] restricted to integral results ([None] stands for
    NaN and for non-integers), and [Date.prototype.toString]. *)
Variable StringToNumber : string -> option Z.
Variable DateToString : Z -> string.

(** ToPrimitive with the default hint. *)
Definition to_primitive (v : val) : val :=
  match v with
  | VDate _ ms => VStr (DateToString ms)
  | VOid _ hex => VStr hex
  | _ => v
  end.

Definition to_number (v : val) : option Z :=
  match v with
  | VBool b => Some (if b then 1 else 0)
  | VNum n => Some n
  | VStr s => StringToNumber s
  | _ => None
  end.

Definition is_object (v : val) : bool :=
  match v with VDate _ _ | VOid _ _ => true | _ => false end.

(** IsLooselyEqual ([==]). *)
Definition loose_eq (x y : option val) : bool :=
  match x, y with
  | None, None => true
  | Some a, Some b =>
      if is_object a && is_object b then bool_decide (a = b)
      else match to_primitive a, to_primitive b with
           | VStr s, VStr t => bool_decide (s = t)
           | p, q => match to_number p, to_number q with
                     | Some m, Some n => m =? n
                     | _, _ => false
                     end
           end
  | _, _ => false
  end.

(** [x != y]. *)
Definition loose_neq (x y : option val) : bool := negb (loose_eq x y).

(** The textual identifier behind a value that holds one: the hex form
    of an ObjectId, or the string itself. *)
Definition id_text (v : option val) : option string :=
  match v with
  | Some (VOid _ hex) => Some hex
  | Some (VStr s) => Some s
  | _ => None
  end.
End Coercions.

End JS.
Export JS.

(** ** Errors *)

(** The error classes of [@app/utils], and the foreign errors that reach
    the same [catch] blocks. *)
Inductive error :=
| ValidationError (message : string)
| NotFoundError (message : string)
| UnauthorizedError (message : string)
| ForbiddenError (message : string)
| IntegrityError (message : string)
| MongoServerError (code : Z) (message : string)
| MongooseValidationError (message : string)
| JsError (name message : string).

Definition error_message (e : error) : string :=
  match e with
  | ValidationError m | NotFoundError m | UnauthorizedError m
  | ForbiddenError m | IntegrityError m | MongoServerError _ m
  | MongooseValidationError m | JsError _ m => m
  end.

(** [error?.code]: only driver errors carry one. *)
Definition error_code (e : error) : option Z :=
  match e with MongoServerError c _ => Some c | _ => None end.

(** The HTTP exceptions of [@nestjs/common] the controller throws. *)
Inductive http_exception :=
| NotFoundException (message : string)
| UnauthorizedException (message : string)
| BadRequestException (message : string)
| ConflictException (message : string)
| ForbiddenException (message : string).

(** Outcome of a call that may throw an [E]. *)
Inductive outcome (E A : Type) :=
| Ok (a : A)
| Throw (e : E).
Arguments Ok {E A} a.
Arguments Throw {E A} e.

Definition is_ok {E A} (r : outcome E A) : bool :=
  match r with Ok _ => true | Throw _ => false end.

(** ** A state-and-exception monad

    An [async] method over a store [S]: writes made before a [throw] stay
    in the store, as nothing in the code rolls them back. *)

Definition M (S A : Type) : Type := S -> outcome error A * S.

Definition ret {S A} (a : A) : M S A := fun s => (Ok a, s).
Definition throw {S A} (e : error) : M S A := fun s => (Throw e, s).
Definition bind {S A B} (m : M S A) (k : A -> M S B) : M S B :=
  fun s => match m s with
           | (Ok a, s') => k a s'
           | (Throw e, s') => (Throw e, s')
           end.
(** [try { m } catch (error) { h error }]. *)
Definition try_catch {S A} (m : M S A) (h : error -> M S A) : M S A :=
  fun s => match m s with
           | (Ok a, s') => (Ok a, s')
           | (Throw e, s') => h e s'
           end.
Definition lift {S A} (r : outcome error A) : M S A := fun s => (r, s).
Definition gets {S A} (f : S -> A) : M S A := fun s => (Ok (f s), s).

Declare Scope js_scope.
Delimit Scope js_scope with js.
Notation "x <- m ;; k" := (bind m (fun x => k))
  (at level 100, m at next level, right associativity) : js_scope.
Notation "m ;;; k" := (bind m (fun _ => k))
  (at level 100, right associativity) : js_scope.


(** ** auth.schema.ts: the three collections *)

Module AuthSchema.

(** [BlacklistAccess] and [BlacklistRefresh]: one [token] per document,
    [required] and [unique].  A document is represented by its token. *)
Abbreviation Blacklist := (list string).

(** [Model.create({ token })]: the required validator rejects the empty
    string, the unique index answers a second insert with E11000. *)
Definition Blacklist_create (token : string) : M Blacklist unit :=
  fun l =>
    if bool_decide (token = "") then
      (Throw (MongooseValidationError "Path `token` is required."), l)
    else if bool_decide (token ∈@{list string} l) then
      (Throw (MongoServerError 11000 "E11000 duplicate key error"), l)
    else (Ok tt, (l ++ [token])%list).

(** [Model.findOne({ token }).lean()]. *)
Definition Blacklist_findOne (token : string) (l : Blacklist) : option string :=
  if bool_decide (token ∈@{list string} l) then Some token else None.

(** [Model.deleteMany({})]. *)
Definition Blacklist_deleteMany : M Blacklist unit := fun _ => (Ok tt, []).

(** The [OTP] collection.  The schema declares [hashedOTP] (required),
    [userId] (an ObjectId, required), [expiresAt] (required, defaulting to
    creation time plus [OTP_EXPIRATION] seconds), [isUsed] (default
    [false]), [otpType] (one of two names, default ['EMAIL']) and
    [verificationToken]; [_id] comes with every schema.  The schema sets
    no [strict] option, so Mongoose's default holds: a property under any
    other name is not put into a new document, is not a property of a
    loaded one, and is not written by [save].  The services use four such
    names: [otpId], [otp], [multiUse] and [isVerified].

    A stored document is what the database holds, which may carry fields
    the schema does not know; the query filter is matched against the
    stored fields as it is written.  The bookkeeping timestamps of the
    [timestamps] option are left out: no code reads them. *)
Abbreviation OTPCollection := (list doc).

(** The types the schema gives its paths. *)
Inductive schema_type := TString | TObjectId | TDate | TBoolean.

Definition has_type (ty : schema_type) (v : val) : bool :=
  match ty, v with
  | TString, VStr _ | TObjectId, VOid _ _ | TDate, VDate _ _
  | TBoolean, VBool _ => true
  | _, _ => false
  end.

(** The paths of the OTP schema. *)
Definition OTP_type (k : string) : option schema_type :=
  if bool_decide (k = "hashedOTP") then Some TString
  else if bool_decide (k = "userId") then Some TObjectId
  else if bool_decide (k = "expiresAt") then Some TDate
  else if bool_decide (k = "isUsed") then Some TBoolean
  else if bool_decide (k = "otpType") then Some TString
  else if bool_decide (k = "verificationToken") then Some TString
  else if bool_decide (k = "_id") then Some TObjectId
  else None.

(** A loaded document: the stored fields that are paths of the schema. *)
Definition OTP_hydrate (stored : doc) : doc :=
  filter (fun kv => is_Some (OTP_type kv.1)) stored.

(** A stored document as the model writes it: every path holds a value
    of its type, and all paths but the optional [verificationToken] are
    set.  Such a document is loaded as it is.  What Mongoose does when
    it loads any other (it casts the fields again and fills in the
    defaults, which a later [save] writes) is not modelled. *)
Definition path_ok (d : doc) (k : string) (needed : bool) : bool :=
  match d !! k, OTP_type k with
  | Some v, Some ty => has_type ty v
  | Some _, None => true
  | None, _ => negb needed
  end.

Definition OTP_wellformed (d : doc) : bool :=
  path_ok d "_id" true && path_ok d "hashedOTP" true
  && path_ok d "userId" true && path_ok d "expiresAt" true
  && path_ok d "isUsed" true && path_ok d "otpType" true
  && path_ok d "verificationToken" false.

Definition set_default (k : string) (v : val) (d : doc) : doc :=
  match d !! k with
  | None => <[k := v]> d
  | Some _ => d
  end.

(** The [required] validator: present, and not the empty string. *)
Definition required_ok (v : option val) : bool :=
  match v with
  | None => false
  | Some (VStr s) => negb (bool_decide (s = ""))
  | Some _ => true
  end.

(** The [enum] validator; it lets [undefined] through. *)
Definition enum_ok (allowed : list string) (v : option val) : bool :=
  match v with
  | None => true
  | Some (VStr s) => bool_decide (s ∈@{list string} allowed)
  | Some _ => false
  end.

(** What one insertion takes from its environment: the clock, the
    ObjectId and instance tag the driver allocates, and Mongoose's cast
    of a value to a type that is not its own, which may fail. *)
Record Fresh := {
  now : Z;
  new_ref : nat;
  new_hex : string;
  cast : schema_type -> val -> option val
}.

(** Casting a value to the type of its path: a value of that type is
    taken as it is. *)
Definition cast_to (env : Fresh) (ty : schema_type) (v : val) : option val :=
  if has_type ty v then Some v
  else match cast env ty v with
       | Some v' => if has_type ty v' then Some v' else None
       | None => None
       end.

Definition cast_path (env : Fresh) (k : string) (v : val) : option val :=
  match OTP_type k with
  | Some ty => cast_to env ty v
  | None => None
  end.

(** [new Model(obj)]: every path of the schema that [obj] defines takes
    the cast of its value, and stays unset when the cast fails; the
    other properties of [obj] are dropped. *)
Definition OTP_cast (env : Fresh) (obj : doc) : doc :=
  map_imap (cast_path env) obj.

(** Whether the value [obj] gives for a path, if any, can be cast. *)
Definition cast_ok (env : Fresh) (obj : doc) (k : string) : bool :=
  match obj !! k with
  | Some v => bool_decide (is_Some (cast_path env k v))
  | None => true
  end.

(** Validation of the document [d] built from [obj], path by path; the
    message names the first path that fails. *)
Definition OTP_validate (env : Fresh) (obj d : doc) : option string :=
  if negb (cast_ok env obj "hashedOTP") then
    Some "OTP validation failed: hashedOTP: Cast to string failed."
  else if negb (required_ok (d !! "hashedOTP")) then
    Some "OTP validation failed: hashedOTP: Path `hashedOTP` is required."
  else if negb (cast_ok env obj "userId") then
    Some "OTP validation failed: userId: Cast to ObjectId failed."
  else if negb (required_ok (d !! "userId")) then
    Some "OTP validation failed: userId: Path `userId` is required."
  else if negb (cast_ok env obj "expiresAt") then
    Some "OTP validation failed: expiresAt: Cast to date failed."
  else if negb (required_ok (d !! "expiresAt")) then
    Some "OTP validation failed: expiresAt: Path `expiresAt` is required."
  else if negb (cast_ok env obj "isUsed") then
    Some "OTP validation failed: isUsed: Cast to Boolean failed."
  else if negb (cast_ok env obj "otpType") then
    Some "OTP validation failed: otpType: Cast to string failed."
  else if negb (enum_ok ["EMAIL"; "AUTHENTICATOR"] (d !! "otpType")) then
    Some "OTP validation failed: otpType: not a valid enum value."
  else if negb (cast_ok env obj "verificationToken") then
    Some "OTP validation failed: verificationToken: Cast to string failed."
  else if negb (cast_ok env obj "_id") then
    Some "OTP validation failed: _id: Cast to ObjectId failed."
  else None.

Section OTPModel.
Variable OTP_EXPIRATION : Z.

Definition OTP_defaults (env : Fresh) (obj : doc) : doc :=
  set_default "otpType" (VStr "EMAIL")
    (set_default "isUsed" (VBool false)
      (set_default "expiresAt"
         (VDate (new_ref env) (now env + OTP_EXPIRATION * 1000))
         (set_default "_id" (VOid (new_ref env) (new_hex env)) obj))).

(** [otpModel.create(obj)]: the document is built from [obj], the
    defaults fill the paths left unset, and the document is validated
    and inserted; it is returned as it was stored. *)
Definition OTP_create (env : Fresh) (obj : doc) : M OTPCollection doc :=
  fun s =>
    let d := OTP_defaults env (OTP_cast env obj) in
    match OTP_validate env obj d with
    | Some msg => (Throw (MongooseValidationError msg), s)
    | None => (Ok d, (s ++ [d])%list)
    end.
End OTPModel.

(** A query filter: every listed field must hold the listed value. *)
Definition matches (filter : list (string * val)) (d : doc) : Prop :=
  Forall (fun kv => d !! kv.1 = Some kv.2) filter.

#[export] Instance matches_dec filter d : Decision (matches filter d).
Proof. unfold matches. apply _. Defined.

(** [otpModel.findOne(filter)]: the first stored document that matches,
    in insertion order, with its position so that [save] can write it
    back.  The caller holds it as [OTP_hydrate] of what is returned. *)
Definition OTP_findOne (filter : list (string * val)) (s : OTPCollection)
  : option (nat * doc) :=
  list_find (matches filter) s.

(** [otpRecord.save()] for the document loaded from position [i]: the
    paths of the schema are written over the stored fields.  A property
    the document object was given under another name is not a path, and
    is not written. *)
Definition OTP_save (i : nat) (d : doc) : M OTPCollection unit :=
  fun s => (Ok tt, alter (fun stored => OTP_hydrate d ∪ stored) i s).

(** The TTL index [{ expiresAt: 1 }, { expireAfterSeconds: 0 }]: a
    background pass of the database removes the documents whose
    [expiresAt] date is not in the future. *)
Definition expired (clock : Z) (d : doc) : bool :=
  match d !! "expiresAt" with
  | Some (VDate _ ms) => bool_decide (ms <= clock)
  | _ => false
  end.

Definition ttl_reap (clock : Z) (s : OTPCollection) : OTPCollection :=
  filter (fun d => expired clock d = false) s.

End AuthSchema.
Export AuthSchema.


(** ** auth.service.ts: OTPService *)

Module OTPService.

(** [OTPVerifyParams].  [otp] and [verificationToken] are optional in the
    interface; [otpId] and [otpType] are not, and calls that leave them
    out are outside the model. *)
Record OTPVerifyParams := {
  otpId : string;
  otpType : string;
  otp : option string;
  verificationToken : option string
}.

(** Rounding to the nearest double, ties to even: the 53 leading bits of
    the numerator [m] of a non-negative number [m / 2^e] are kept.  The
    numbers met below lie well inside the exponent range. *)
Definition round53 (m : Z) : Z :=
  let sh := Z.log2 m - 52 in
  if sh <=? 0 then m
  else
    let q := m / 2 ^ sh in
    let rest := m mod 2 ^ sh in
    let half := 2 ^ (sh - 1) in
    if (half <? rest) || ((rest =? half) && Z.odd q) then (q + 1) * 2 ^ sh
    else q * 2 ^ sh.

(** [Math.floor(100000 + Math.random() * 900000).toString()].  The draw
    is the double [r / 2^53], given by its 53-bit numerator [r]; the
    product and the sum are doubles, each the rounding of the exact
    result, here as numerators over [2^53]. *)
Definition generateOTP (r : Z) : string :=
  pretty (round53 (100000 * 2 ^ 53 + round53 (r * 900000)) / 2 ^ 53).

(** The two [Math.random()] draws of one [createOTP] call. *)
Record Entropy := { otp_draw : Z; token_draw : Z }.

Section WithHasher.
Variable OTP_EXPIRATION : Z.
(** [encryptPassword] and [verifyPassword] of [utils.encrypt]. *)
Variable encryptPassword : string -> string.
Variable verifyPassword : string -> string -> bool.

(** Modelled from the spec: the code of [verifyPassword] is not part of
    these files; on a stored value that is not a string it "never throws
    on malformed input, returns false". *)
Definition verifyPassword_js (plain : string) (stored : option val) : bool :=
  match stored with
  | Some (VStr h) => verifyPassword plain h
  | _ => false
  end.

(** [supplied && verifyPassword(supplied, stored)]. *)
Definition supplied_and_verified (supplied : option string) (stored : option val)
  : bool :=
  match supplied with
  | Some plain => truthy (Some (VStr plain)) && verifyPassword_js plain stored
  | None => false
  end.

(** The object literal [{ userId, otpType, otp: hashedOTP,
    verificationToken, multiUse }]. *)
Definition createOTP_obj (userId : val) (otpType : string) (hashedOTP : string)
    (verificationToken : string) (multiUse : bool) : doc :=
  <["userId" := userId]>
    (<["otpType" := VStr otpType]>
      (<["otp" := VStr hashedOTP]>
        (<["verificationToken" := VStr verificationToken]>
          (<["multiUse" := VBool multiUse]> ∅)))).

Definition createOTP (rnd : Entropy) (env : Fresh)
    (userId : val) (otpType : string) (multiUse : bool) : M OTPCollection doc :=
  let otp := generateOTP (otp_draw rnd) in
  let hashedOTP := encryptPassword otp in
  let verificationToken := generateOTP (token_draw rnd) in
  let obj := createOTP_obj userId otpType hashedOTP verificationToken multiUse in
  OTP_create OTP_EXPIRATION env obj.

(** The filter [{ otpId, otpType }] of both lookups. *)
Definition otp_filter (p : OTPVerifyParams) : list (string * val) :=
  [("otpId", VStr (otpId p)); ("otpType", VStr (otpType p))].

(** In both functions [otpRecord] is the loaded document; assigning to
    a name that is no path of the schema gives the object a property of
    its own. *)
Definition verifyOTP (p : OTPVerifyParams) : M OTPCollection unit :=
  (found <- gets (OTP_findOne (otp_filter p)) ;;
   match found with
   | None => throw (UnauthorizedError "Otp not found. It must have expired")
   | Some (i, stored) =>
       let otpRecord := OTP_hydrate stored in
       if truthy (otpRecord !! "isUsed") then
         throw (UnauthorizedError "OTP already used")
       else if supplied_and_verified (otp p) (otpRecord !! "hashedOTP") then
         OTP_save i (<["isVerified" := VBool true]> otpRecord)
       else throw (UnauthorizedError "Invalid OTP")
   end)%js.

Definition useOTP (p : OTPVerifyParams) : M OTPCollection doc :=
  (found <- gets (OTP_findOne (otp_filter p)) ;;
   match found with
   | None => throw (UnauthorizedError "Otp not found. It must have expired")
   | Some (i, stored) =>
       let otpRecord := OTP_hydrate stored in
       if truthy (otpRecord !! "isUsed") then
         throw (UnauthorizedError "OTP already used")
       else if supplied_and_verified (verificationToken p)
                 (otpRecord !! "verificationToken") then
         let otpRecord :=
           if negb (truthy (otpRecord !! "multiUse"))
           then <["isUsed" := VBool true]> otpRecord
           else otpRecord in
         (OTP_save i otpRecord ;;; ret otpRecord)
       else throw (UnauthorizedError "OTP verification failed")
   end)%js.

End WithHasher.
End OTPService.


(** ** auth.service.ts: AuthService *)

Module AuthService.

(** The two injected blacklist models. *)
Record AuthDb := {
  blacklistAccessModel : Blacklist;
  blacklistRefreshModel : Blacklist
}.

(** Running a collection operation against one of the two models. *)
Definition on_access {A} (m : M Blacklist A) : M AuthDb A :=
  fun db =>
    let '(r, l) := m (blacklistAccessModel db) in
    (r, {| blacklistAccessModel := l;
           blacklistRefreshModel := blacklistRefreshModel db |}).

Definition on_refresh {A} (m : M Blacklist A) : M AuthDb A :=
  fun db =>
    let '(r, l) := m (blacklistRefreshModel db) in
    (r, {| blacklistAccessModel := blacklistAccessModel db;
           blacklistRefreshModel := l |}).

(** The declared type of [model] is ['access' | 'refresh']; the code
    still tests for anything else, so it is a string here. *)
Definition blacklistToken (token : string) (model : string) : M AuthDb unit :=
  try_catch
    (if bool_decide (model = "access") then on_access (Blacklist_create token)
     else if bool_decide (model = "refresh") then on_refresh (Blacklist_create token)
     else throw (ValidationError "Invalid model"))
    (fun error =>
       if bool_decide (error_code error = Some 11000) then
         throw (IntegrityError "Token already blacklisted")
       else throw error).

Definition isTokenBlacklisted (token : string) (model : string) (db : AuthDb)
  : bool :=
  let blacklist :=
    if bool_decide (model = "access") then
      Blacklist_findOne token (blacklistAccessModel db)
    else if bool_decide (model = "refresh") then
      Blacklist_findOne token (blacklistRefreshModel db)
    else None in
  bool_decide (blacklist <> None).

Definition clearBlacklist : M AuthDb unit :=
  (on_access Blacklist_deleteMany ;;; on_refresh Blacklist_deleteMany)%js.

Record AuthTokenResponse := {
  accessToken : string;
  userId : string;
  refreshToken : string;
  access_iat : string;
  refresh_iat : string;
  access_exp : string;
  refresh_exp : string
}.

(** Options of [jwtService.signAsync] and [jwtService.verify]. *)
Record JwtSignOptions := {
  secret : string;
  expiresIn : string;
  algorithm : string
}.

Record JwtVerifyOptions := {
  verify_secret : string;
  algorithms : list string;
  maxAge : string;
  ignoreExpiration : bool
}.

Definition is_hex_digit (c : ascii) : bool :=
  let n := nat_of_ascii c in
  ((48 <=? n) && (n <=? 57) || (65 <=? n) && (n <=? 70)
   || (97 <=? n) && (n <=? 102))%nat.

Definition lower_hex_digit (c : ascii) : ascii :=
  let n := nat_of_ascii c in
  if ((65 <=? n) && (n <=? 70))%nat then ascii_of_nat (n + 32) else c.

(** [Types.ObjectId.createFromHexString]: twenty-four hexadecimal digits,
    or an error.  The new ObjectId is only handed to the users service,
    which looks it up by value, so it is represented by its canonical
    (lower-case) hex form. *)
Definition createFromHexString (v : val) : outcome error string :=
  match v with
  | VStr s =>
      let cs := list_ascii_of_string s in
      if bool_decide (length cs = 24%nat) && forallb is_hex_digit cs then
        Ok (string_of_list_ascii (map lower_hex_digit cs))
      else Throw (JsError "BSONError" "hex string must be 24 characters")
  | _ => Throw (JsError "BSONError" "hex string must be 24 characters")
  end.

Section WithCollaborators.
(** Configuration constants of [@app/utils]. *)
Variables JWT_VERIFYING_KEY JWT_ALGORITHM JWT_SIGNING_KEY : string.
Variables JWT_REFRESH_TOKEN_EXPIRATION JWT_ACCESS_TOKEN_EXPIRATION : string.
(** [JwtService]: signing a payload, and verifying a token at a given
    clock reading (milliseconds), which yields the decoded payload or
    throws. *)
Variable signAsync : doc -> JwtSignOptions -> outcome error string.
Variable verify : string -> JwtVerifyOptions -> Z -> outcome error doc.
(** [UsersService.getUser(id, filter)] over the users store: the user
    document, [null], or an error.  The id is given by its hex form. *)
Variable Users : Type.
Variable getUser : Users -> option string -> doc -> outcome error (option doc).
(** [Date.prototype.toISOString], of a time in milliseconds. *)
Variable toISOString : Z -> string.

(** [user._id.toHexString()]. *)
Definition toHexString (v : option val) : outcome error string :=
  match v with
  | Some (VOid _ hex) => Ok hex
  | _ => Throw (JsError "TypeError" "toHexString is not a function")
  end.

(** A property whose value may be [undefined]: the key is left out. *)
Definition set_opt (k : string) (v : option val) (d : doc) : doc :=
  match v with
  | Some x => <[k := x]> d
  | None => d
  end.

(** [getTokens(user)] at clock reading [clock] (milliseconds). *)
Definition getTokens (user : doc) (clock : Z) : outcome error AuthTokenResponse :=
  let issuedAt := clock / 1000 in
  let accessTokenExpiry := issuedAt + 60 * 60 in
  let refreshTokenExpiry := issuedAt + 60 * 60 * 24 * 7 in
  match toHexString (user !! "_id") with
  | Throw e => Throw e
  | Ok sub =>
      let payload : doc :=
        <["sub" := VStr sub]>
          (set_opt "lastAuthChange" (user !! "lastAuthChange")
            (<["iat" := VNum (clock / 1000)]> ∅)) in
      match signAsync (<["type" := VStr "access"]> payload)
              {| secret := JWT_SIGNING_KEY;
                 expiresIn := JWT_ACCESS_TOKEN_EXPIRATION;
                 algorithm := JWT_ALGORITHM |} with
      | Throw e => Throw e
      | Ok accessToken =>
          match signAsync (<["type" := VStr "refresh"]> payload)
                  {| secret := JWT_SIGNING_KEY;
                     expiresIn := JWT_REFRESH_TOKEN_EXPIRATION;
                     algorithm := JWT_ALGORITHM |} with
          | Throw e => Throw e
          | Ok refreshToken =>
              Ok {| accessToken := accessToken;
                    refreshToken := refreshToken;
                    userId := sub;
                    access_iat := toISOString (issuedAt * 1000);
                    refresh_iat := toISOString (issuedAt * 1000);
                    access_exp := toISOString (accessTokenExpiry * 1000);
                    refresh_exp := toISOString (refreshTokenExpiry * 1000) |}
          end
      end
  end.

(** The options [refreshTokens] verifies with. *)
Definition refresh_verify_options : JwtVerifyOptions :=
  {| verify_secret := JWT_VERIFYING_KEY;
     algorithms := [JWT_ALGORITHM];
     maxAge := JWT_REFRESH_TOKEN_EXPIRATION;
     ignoreExpiration := false |}.

(** The body of the [try] block of [refreshTokens]. *)
Definition refreshTokens_try (users : Users) (clock : Z)
    (oldRefreshToken : string) : M AuthDb AuthTokenResponse :=
  (blacklisted <- gets (isTokenBlacklisted oldRefreshToken "refresh") ;;
   if (blacklisted : bool) then throw (ForbiddenError "Token blacklisted")
   else
     decoded <- lift (verify oldRefreshToken refresh_verify_options clock) ;;
     if bool_decide (decoded !! "type" <> Some (VStr "refresh")) then
       throw (ForbiddenError "Invalid token type")
     else
       id <- lift (createFromHexString (default (VStr "") (decoded !! "sub"))) ;;
       user <- lift (getUser users (Some id) ∅) ;;
       match user with
       | None => throw (ForbiddenError "User not found")
       | Some user =>
           newTokens <- lift (getTokens user clock) ;;
           (blacklistToken oldRefreshToken "refresh" ;;;
            ret newTokens)
       end)%js.

Definition refreshTokens (users : Users) (clock : Z) (oldRefreshToken : string)
  : M AuthDb AuthTokenResponse :=
  try_catch (refreshTokens_try users clock oldRefreshToken)
    (fun error => throw (UnauthorizedError "Invalid token")).

End WithCollaborators.
End AuthService.


(** ** auth.controller.ts *)

Module AuthController.
Import AuthService.

(** A handler [try { m } catch (error) { throw h error }].  The error
    classes of [@app/utils] are taken to be unrelated by inheritance, so
    an [instanceof] test is a test on the constructor. *)
Definition handler {S A} (m : M S A) (h : error -> http_exception)
  : S -> outcome http_exception A * S :=
  fun s => match m s with
           | (Ok a, s') => (Ok a, s')
           | (Throw e, s') => (Throw (h e), s')
           end.

(** Reading a property of a value that may be [null]. *)
Definition prop (o : option doc) (k : string) : outcome error (option val) :=
  match o with
  | Some d => Ok (d !! k)
  | None => Throw (JsError "TypeError" "Cannot read properties of null")
  end.

Section WithCollaborators.
Variables JWT_VERIFYING_KEY JWT_ALGORITHM JWT_SIGNING_KEY : string.
Variables JWT_REFRESH_TOKEN_EXPIRATION JWT_ACCESS_TOKEN_EXPIRATION : string.
Variable signAsync : doc -> JwtSignOptions -> outcome error string.
Variable verify : string -> JwtVerifyOptions -> Z -> outcome error doc.
Variable Users : Type.
Variable getUser : Users -> option string -> doc -> outcome error (option doc).
Variable toISOString : Z -> string.
(** [user.save()] on a hydrated user document, and
    [UsersService.updateUser(id, fields)]. *)
Variable save : doc -> M Users unit.
Variable updateUser : option val -> doc -> M Users doc.
Variable StringToNumber : string -> option Z.
Variable DateToString : Z -> string.

Definition refresh (users : Users) (clock : Z) (body_token : string)
  : AuthDb -> outcome http_exception AuthTokenResponse * AuthDb :=
  handler
    (refreshTokens JWT_VERIFYING_KEY JWT_ALGORITHM JWT_SIGNING_KEY
       JWT_REFRESH_TOKEN_EXPIRATION JWT_ACCESS_TOKEN_EXPIRATION
       signAsync verify Users getUser toISOString users clock body_token)
    (fun error =>
       match error with
       | ForbiddenError m => ForbiddenException m
       | UnauthorizedError m => UnauthorizedException m
       | IntegrityError m => ConflictException m
       | _ => BadRequestException (error_message error)
       end).

(** [req.token] is the access token the authentication guard accepted. *)
Definition logout (req_token : string) (body_token : string)
  : AuthDb -> outcome http_exception string * AuthDb :=
  handler
    (blacklistToken req_token "access" ;;;
     blacklistToken body_token "refresh" ;;;
     ret "Successfully logged out")%js
    (fun error =>
       match error with
       | ValidationError m => BadRequestException m
       | IntegrityError m => ConflictException m
       | _ => BadRequestException (error_message error)
       end).

(** [usersService.getUser(null, { email })]. *)
Definition getUser_by_email (email : option val) : M Users (option doc) :=
  fun users => (getUser users None (set_opt "email" email ∅), users).

(** [req.otpRecord] is what the [OTPRequired] guard left on the request:
    an OTP document, or nothing. *)
Definition verifyAccount (otpRecord : option doc) (body : doc)
  : Users -> outcome http_exception string * Users :=
  handler
    (let email := body !! "email" in
     user <- getUser_by_email email ;;
     (match otpRecord with
      | Some r =>
          uid <- lift (prop user "_id") ;;
          if loose_neq StringToNumber DateToString (r !! "userId") uid then
            throw (UnauthorizedError
              "You're not permitted to carry this out. Request a new otp")
          else ret tt
      | None => ret tt
      end) ;;;
     isVerified <- lift (prop user "isVerified") ;;
     if truthy isVerified then
       throw (UnauthorizedError "Account already verified")
     else
       match user with
       | Some user =>
           save (<["isVerified" := VBool true]> user) ;;;
           ret "Account verified successfully..Proceed to log in"
       | None => throw (JsError "TypeError" "Cannot set properties of null")
       end)%js
    (fun error =>
       match error with
       | UnauthorizedError m => UnauthorizedException m
       | _ => BadRequestException (error_message error)
       end).

Definition resetPassword (otpRecord : option doc) (body : doc)
  : Users -> outcome http_exception string * Users :=
  handler
    (let email := body !! "email" in
     user <- getUser_by_email email ;;
     (match otpRecord with
      | Some r =>
          uid <- lift (prop user "_id") ;;
          if loose_neq StringToNumber DateToString (r !! "userId") uid then
            throw (UnauthorizedError
              "You're not permitted to carry this out. Request a new otp")
          else ret tt
      | None => ret tt
      end) ;;;
     let password := body !! "password" in
     uid <- lift (prop user "_id") ;;
     updateUser uid (set_opt "password" password ∅) ;;;
     ret "Password reset successfully")%js
    (fun error =>
       match error with
       | UnauthorizedError m => UnauthorizedException m
       | NotFoundError m => NotFoundException m
       | _ => BadRequestException (error_message error)
       end).

End WithCollaborators.

(** *** The remaining routes: login, signup, OTP request and OTP check *)

Section OtherRoutes.
Variables JWT_ALGORITHM JWT_SIGNING_KEY : string.
Variables JWT_REFRESH_TOKEN_EXPIRATION JWT_ACCESS_TOKEN_EXPIRATION : string.
Variable signAsync : doc -> JwtSignOptions -> outcome error string.
Variable toISOString : Z -> string.
Variable Users : Type.
Variable getUser : Users -> option string -> doc -> outcome error (option doc).
(** [UsersService.loginUser(email, password)] and
    [UsersService.signupUser(body)]. *)
Variable loginUser : string -> string -> M Users doc.
Variable signupUser : doc -> M Users unit.
Variable OTP_EXPIRATION : Z.
Variable encryptPassword : string -> string.
Variable verifyPassword : string -> string -> bool.

(** [login(body)], with the two fields of the validated [LoginDto]. *)
Definition login (clock : Z) (email password : string)
  : Users -> outcome http_exception AuthTokenResponse * Users :=
  handler
    (user <- loginUser email password ;;
     tokens <- lift (getTokens JWT_ALGORITHM JWT_SIGNING_KEY
                       JWT_REFRESH_TOKEN_EXPIRATION JWT_ACCESS_TOKEN_EXPIRATION
                       signAsync toISOString user clock) ;;
     ret tokens)%js
    (fun error =>
       match error with
       | NotFoundError m => NotFoundException m
       | UnauthorizedError m => UnauthorizedException m
       | _ => BadRequestException (error_message error)
       end).

Definition signup (body : doc) : Users -> outcome http_exception string * Users :=
  handler
    (signupUser body ;;;
     ret "Signup successful, Proceed to verify your account")%js
    (fun error =>
       match error with
       | IntegrityError m => ConflictException m
       | _ => BadRequestException (error_message error)
       end).

(** [createOTP(undefined, otpType, multiUse)]: the same object literal
    with [userId] undefined, that is, without the key. *)
Definition createOTP_without_user (rnd : OTPService.Entropy) (env : Fresh)
    (otpType : string) (multiUse : bool) : M OTPCollection doc :=
  let otp := OTPService.generateOTP (OTPService.otp_draw rnd) in
  let hashedOTP := encryptPassword otp in
  let verificationToken := OTPService.generateOTP (OTPService.token_draw rnd) in
  OTP_create OTP_EXPIRATION env
    (delete "userId"
       (OTPService.createOTP_obj (VBool false) otpType hashedOTP
          verificationToken multiUse)).

(** [requestOTP(body)] with the fields [email], [otpType] and [multiUse]
    of the validated body; [multiUse] may be left out.  The
    [console.log] of the record is not modelled. *)
Definition requestOTP (users : Users) (rnd : OTPService.Entropy) (env : Fresh)
    (email : string) (otpType : string) (multiUse : option bool)
  : OTPCollection -> outcome http_exception string * OTPCollection :=
  handler
    (user <- lift (getUser users None (<["email" := VStr email]> ∅)) ;;
     uid <- lift (prop user "_id") ;;
     (match uid with
      | Some userId =>
          OTPService.createOTP OTP_EXPIRATION encryptPassword rnd env
            userId otpType (default false multiUse)
      | None =>
          createOTP_without_user rnd env otpType (default false multiUse)
      end) ;;;
     ret "OTP sent successfully")%js
    (fun error =>
       match error with
       | UnauthorizedError m => UnauthorizedException m
       | _ => BadRequestException (error_message error)
       end).

(** [verifyOTP(body)]: the body goes to the service as it is. *)
Definition verifyOTP (body : OTPService.OTPVerifyParams)
  : OTPCollection -> outcome http_exception string * OTPCollection :=
  handler
    (OTPService.verifyOTP verifyPassword body ;;;
     ret "OTP verified successfully")%js
    (fun error =>
       match error with
       | UnauthorizedError m => UnauthorizedException m
       | _ => BadRequestException (error_message error)
       end).

End OtherRoutes.
End AuthController.


(** ** utils.pagination.ts *)

Module Pagination.

Record PaginatedDocs := {
  docs : list doc;
  totalDocs : Z;
  limit : Z;
  page : Z;
  totalPages : Z;
  next : option Z;
  prev : option Z
}.

(** [options]; [sortField] and [sortOrder] are optional. *)
Record Options := {
  opt_page : Z;
  opt_limit : Z;
  sortField : option string;
  sortOrder : option val
}.

(** [Math.ceil(a / b)] for a positive [b]. *)
Definition ceil_div (a b : Z) : Z := - ((- a) / b).

(** [(sortField && sortOrder) ? { [sortField]: sortOrder || -1 } : {}]. *)
Definition sortOptions_of (o : Options) : option (string * val) :=
  match sortField o, sortOrder o with
  | Some f, Some ord =>
      if truthy (Some (VStr f)) && truthy (Some ord) then Some (f, ord) else None
  | _, _ => None
  end.

(** The same options for another page. *)
Definition at_page (o : Options) (p : Z) : Options :=
  {| opt_page := p; opt_limit := opt_limit o;
     sortField := sortField o; sortOrder := sortOrder o |}.

Section WithModel.
(** The query filter as a test on documents, the projection
    [select(fieldsToExclude)] and the sort of the database. *)
Variable matching : doc -> bool.
Variable select : list string -> doc -> doc.
Variable sort : option (string * val) -> list doc -> list doc.

(** [paginate(model, query, options, fieldsToExclude)] over the documents
    of the collection [model].  Page and limit are integers. *)
Definition paginate (model : list doc) (options : Options)
    (fieldsToExclude : list string) : outcome error PaginatedDocs :=
  let page := opt_page options in
  let limit := opt_limit options in
  if page <? 1 then Throw (ValidationError "Invalid page number")
  else if limit <? 1 then Throw (ValidationError "Invalid limit")
  else
    let sortOptions := sortOptions_of options in
    let found := List.filter matching model in
    let totalDocs := Z.of_nat (length found) in
    let totalPages := ceil_div totalDocs limit in
    let skips := (page - 1) * limit in
    if (1 <? page) && (totalPages <? page) then
      Throw (NotFoundError "Page not found")
    else
      let docs :=
        map (select fieldsToExclude)
          (take (Z.to_nat limit) (drop (Z.to_nat skips) (sort sortOptions found))) in
      let next :=
        if Z.of_nat (length docs) =? limit then Some (page + 1) else None in
      let prev := if 1 <? page then Some (page - 1) else None in
      Ok {| docs := docs; totalDocs := totalDocs; next := next; prev := prev;
            limit := limit; page := page; totalPages := totalPages |}.

(** The documents of pages [1 .. n], one page after the other; a page
    that throws contributes nothing. *)
Definition page_docs (model : list doc) (o : Options)
    (fieldsToExclude : list string) (p : Z) : list doc :=
  match paginate model (at_page o p) fieldsToExclude with
  | Ok r => docs r
  | Throw _ => []
  end.

Definition pages_upto (model : list doc) (o : Options)
    (fieldsToExclude : list string) (n : nat) : list doc :=
  concat (map (fun k => page_docs model o fieldsToExclude (Z.of_nat (S k)))
            (seq 0 n)).
End WithModel.
End Pagination.

(** ** Call sequences of the token service *)

Module Traces.
Import AuthService AuthController.

(** One call that reaches the two blacklists. *)
Inductive auth_call :=
| CallBlacklist (token model : string)
| CallRefresh (clock : Z) (token : string)
| CallLogout (access_token refresh_token : string)
| CallClear.

(** A call that can only add to the blacklists. *)
Definition is_clear (c : auth_call) : bool :=
  match c with CallClear => true | _ => false end.

(** Both blacklists hold every token at most once. *)
Definition blacklists_unique (db : AuthDb) : Prop :=
  NoDup (blacklistAccessModel db) /\ NoDup (blacklistRefreshModel db).

Section WithCollaborators.
Variables JWT_VERIFYING_KEY JWT_ALGORITHM JWT_SIGNING_KEY : string.
Variables JWT_REFRESH_TOKEN_EXPIRATION JWT_ACCESS_TOKEN_EXPIRATION : string.
Variable signAsync : doc -> JwtSignOptions -> outcome error string.
Variable verify : string -> JwtVerifyOptions -> Z -> outcome error doc.
Variable Users : Type.
Variable getUser : Users -> option string -> doc -> outcome error (option doc).
Variable toISOString : Z -> string.

(** The blacklists a call leaves behind, whether it returned or threw. *)
Definition run_auth_call (users : Users) (c : auth_call) (db : AuthDb) : AuthDb :=
  match c with
  | CallBlacklist token model => (blacklistToken token model db).2
  | CallRefresh clock token =>
      (refreshTokens JWT_VERIFYING_KEY JWT_ALGORITHM JWT_SIGNING_KEY
         JWT_REFRESH_TOKEN_EXPIRATION JWT_ACCESS_TOKEN_EXPIRATION
         signAsync verify Users getUser toISOString users clock token db).2
  | CallLogout access_token refresh_token =>
      (logout access_token refresh_token db).2
  | CallClear => (clearBlacklist db).2
  end.

Definition run_auth_calls (users : Users) (cs : list auth_call) (db : AuthDb)
  : AuthDb :=
  foldl (fun db c => run_auth_call users c db) db cs.
End WithCollaborators.

(** Two outcomes agree: both return, or both throw the same error. *)
Definition same_verdict {A B} (r1 : outcome error A) (r2 : outcome error B) : Prop :=
  match r1, r2 with
  | Ok _, Ok _ => True
  | Throw e1, Throw e2 => e1 = e2
  | _, _ => False
  end.

End Traces.

(** ** Call sequences of the OTP service *)

Module Runs.
Import OTPService.

(** One call of the OTP service by a client. *)
Inductive otp_call :=
| CallCreate (rnd : Entropy) (env : Fresh) (userId : val) (otpType : string)
    (multiUse : bool)
| CallVerify (p : OTPVerifyParams)
| CallUse (p : OTPVerifyParams).

Section WithHasher.
Variable OTP_EXPIRATION : Z.
Variable encryptPassword : string -> string.
Variable verifyPassword : string -> string -> bool.

(** The collection a call leaves behind, whether it returned or threw. *)
Definition run_call (c : otp_call) (s : OTPCollection) : OTPCollection :=
  match c with
  | CallCreate rnd env userId otpType multiUse =>
      (createOTP OTP_EXPIRATION encryptPassword rnd env userId otpType multiUse s).2
  | CallVerify p => (verifyOTP verifyPassword p s).2
  | CallUse p => (useOTP verifyPassword p s).2
  end.

Definition run_calls (cs : list otp_call) (s : OTPCollection) : OTPCollection :=
  foldl (fun s c => run_call c s) s cs.

(** [n] successive [useOTP] calls with the same parameters: whether all
    of them returned, and the collection at the end. *)
Fixpoint useOTP_times (n : nat) (p : OTPVerifyParams) (s : OTPCollection)
  : bool * OTPCollection :=
  match n with
  | O => (true, s)
  | S n =>
      match useOTP verifyPassword p s with
      | (Ok _, s') => useOTP_times n p s'
      | (Throw _, s') => (false, s')
      end
  end.
End WithHasher.
End Runs.

(** ** Concrete collaborators

    Small stand-ins for the collaborators, on which the statements below
    are instantiated. *)

Module Fixture.
Import OTPService AuthService AuthController.

(** A hasher whose output embeds a salt marker in front of the input. *)
Definition encryptPassword (plain : string) : string := "$2b$" +:+ plain.
Definition verifyPassword (plain h : string) : bool :=
  bool_decide (h = "$2b$" +:+ plain).

(** A verifier that knows two tokens of one user. *)
Definition user_hex : string := "0123456789abcdef01234567".

Definition verify (token : string) (_ : JwtVerifyOptions) (_ : Z)
  : outcome error doc :=
  if bool_decide (token = "refresh.token") then
    Ok (<["sub" := VStr user_hex]> (<["type" := VStr "refresh"]> ∅))
  else if bool_decide (token = "access.token") then
    Ok (<["sub" := VStr user_hex]> (<["type" := VStr "access"]> ∅))
  else Throw (JsError "JsonWebTokenError" "jwt malformed").

Definition signAsync (payload : doc) (o : JwtSignOptions) : outcome error string :=
  match payload !! "type" with
  | Some (VStr t) => Ok (t +:+ ".next")
  | _ => Ok "next"
  end.

Definition toISOString (ms : Z) : string := pretty ms.

(** A users store: the list of user documents. *)
Definition has_id (hex : string) (u : doc) : Prop :=
  id_text (u !! "_id") = Some hex.

#[export] Instance has_id_dec hex u : Decision (has_id hex u).
Proof. unfold has_id. apply _. Defined.

Definition getUser (users : list doc) (id : option string) (filter : doc)
  : outcome error (option doc) :=
  match id with
  | Some hex => Ok (snd <$> list_find (has_id hex) users)
  | None =>
      Ok (snd <$> list_find (fun u => u !! "email" = filter !! "email") users)
  end.

Definition save (u : doc) : M (list doc) unit :=
  fun users =>
    match list_find (fun v => v !! "_id" = u !! "_id") users with
    | Some (i, _) => (Ok tt, <[i := u]> users)
    | None => (Ok tt, (users ++ [u])%list)
    end.

Definition updateUser (id : option val) (fields : doc) : M (list doc) doc :=
  fun users =>
    match list_find (fun v => v !! "_id" = id) users with
    | Some (i, u) => (Ok (fields ∪ u), <[i := fields ∪ u]> users)
    | None => (Throw (NotFoundError "User not found"), users)
    end.

Definition StringToNumber (s : string) : option Z :=
  if bool_decide (s = "") then Some 0 else None.
Definition DateToString (ms : Z) : string := pretty ms.

(** Sample data. *)
Definition alice : doc :=
  <["_id" := VOid 1 user_hex]>
    (<["email" := VStr "a@x.com"]> (<["isVerified" := VBool false]> ∅)).

Definition db0 : AuthDb :=
  {| blacklistAccessModel := []; blacklistRefreshModel := [] |}.

(** What [verify] decodes the two known tokens to. *)
Definition refresh_payload : doc :=
  <["sub" := VStr user_hex]> (<["type" := VStr "refresh"]> ∅).
Definition access_payload : doc :=
  <["sub" := VStr user_hex]> (<["type" := VStr "access"]> ∅).

(** The pair issued to [alice] at clock reading 5000. *)
Definition alice_tokens : AuthTokenResponse :=
  {| accessToken := "access.next";
     userId := user_hex;
     refreshToken := "refresh.next";
     access_iat := "5000";
     refresh_iat := "5000";
     access_exp := "3605000";
     refresh_exp := "604805000" |}.

(** A stored OTP document.  Besides the paths of the schema it holds the
    two fields the services expect, [otpId] and [multiUse]. *)
Definition otp_record (multiUse : bool) (expiresAt : Z) : doc :=
  <["_id" := VOid 7 "aaaaaaaaaaaaaaaaaaaaaaaa"]>
    (<["otpId" := VStr "otp-1"]>
      (<["otpType" := VStr "EMAIL"]>
        (<["userId" := VOid 2 user_hex]>
          (<["hashedOTP" := VStr (encryptPassword "123456")]>
            (<["verificationToken" := VStr (encryptPassword "654321")]>
              (<["isUsed" := VBool false]>
                (<["multiUse" := VBool multiUse]>
                  (<["expiresAt" := VDate 7 expiresAt]> ∅)))))))).

(** A live collection: a record stored for single use and one stored
    for multiple use, under different identifiers. *)
Definition other_record : doc :=
  <["otpId" := VStr "otp-2"]> (otp_record false 900000).
Definition live_store : OTPCollection :=
  [other_record; otp_record true 900000].

Definition otp_params : OTPVerifyParams :=
  {| otpId := "otp-1"; otpType := "EMAIL";
     otp := Some "123456"; verificationToken := Some "654321" |}.

(** Two records that expired at 1000 and 1500. *)
Definition stale_store : OTPCollection :=
  [otp_record false 1000; otp_record true 1500].

(** A user other than [alice], and an OTP record owned by that user. *)
Definition bob_hex : string := "89abcdef0123456789abcdef".
Definition bob_record : doc :=
  <["userId" := VOid 3 bob_hex]> (otp_record false 900000).
Definition alice_body : doc :=
  <["email" := VStr "a@x.com"]> (<["password" := VStr "Secret2"]> ∅).

(** A database in which an access token is already blacklisted. *)
Definition db1 : AuthDb :=
  {| blacklistAccessModel := ["access.token"]; blacklistRefreshModel := [] |}.

Definition entropy0 : Entropy := {| otp_draw := 0; token_draw := 2 ^ 52 |}.
(** A caster that knows three conversions: twenty-four hex digits to an
    ObjectId, a number of milliseconds to a date, an integer to its
    numeral. *)
Definition caster (ty : schema_type) (v : val) : option val :=
  match ty, v with
  | TObjectId, VStr _ =>
      match createFromHexString v with
      | Ok hex => Some (VOid 0 hex)
      | Throw _ => None
      end
  | TDate, VNum ms => Some (VDate 0 ms)
  | TString, VNum n => Some (VStr (pretty n))
  | _, _ => None
  end.

Definition fresh0 : Fresh :=
  {| now := 1000; new_ref := 7; new_hex := "aaaaaaaaaaaaaaaaaaaaaaaa";
     cast := caster |}.

(** A signer and verifier that agree with each other: a token is the
    type, a colon and the subject. *)
Definition sign_typed (payload : doc) (o : JwtSignOptions) : outcome error string :=
  match payload !! "type", payload !! "sub" with
  | Some (VStr ty), Some (VStr sub) =>
      if bool_decide (ty = "access") then Ok ("access:" +:+ sub)
      else if bool_decide (ty = "refresh") then Ok ("refresh:" +:+ sub)
      else Throw (JsError "Error" "unknown token type")
  | _, _ => Throw (JsError "Error" "payload without type or subject")
  end.

Definition verify_typed (token : string) (_ : JwtVerifyOptions) (_ : Z)
  : outcome error doc :=
  if String.prefix "access:" token then
    Ok (<["type" := VStr "access"]>
          (<["sub" := VStr (String.substring 7 (String.length token - 7) token)]> ∅))
  else if String.prefix "refresh:" token then
    Ok (<["type" := VStr "refresh"]>
          (<["sub" := VStr (String.substring 8 (String.length token - 8) token)]> ∅))
  else Throw (JsError "JsonWebTokenError" "jwt malformed").

(** The pair [sign_typed] issues to [alice] at clock reading 5000. *)
Definition alice_typed_tokens : AuthTokenResponse :=
  {| accessToken := "access:0123456789abcdef01234567";
     userId := user_hex;
     refreshToken := "refresh:0123456789abcdef01234567";
     access_iat := "5000";
     refresh_iat := "5000";
     access_exp := "3605000";
     refresh_exp := "604805000" |}.

(** A database with one token in each blacklist. *)
Definition db2 : AuthDb :=
  {| blacklistAccessModel := ["access.token"];
     blacklistRefreshModel := ["refresh.token"] |}.




(** Five documents to page through, unfiltered, unprojected and in
    stored order. *)
Definition five_docs : list doc :=
  map (fun k => <["n" := VNum k]> ∅) [1; 2; 3; 4; 5].
Definition match_all (_ : doc) : bool := true.
Definition select_all (_ : list string) (d : doc) : doc := d.
Definition sort_none (_ : option (string * val)) (l : list doc) : list doc := l.
Definition page_options (page limit : Z) : Pagination.Options :=
  {| Pagination.opt_page := page; Pagination.opt_limit := limit;
     Pagination.sortField := None; Pagination.sortOrder := None |}.

(** A database in which only a refresh token is blacklisted. *)
Definition db3 : AuthDb :=
  {| blacklistAccessModel := []; blacklistRefreshModel := ["refresh.token"] |}.

(** Calls of every kind but [clearBlacklist]. *)
Definition some_calls : list Traces.auth_call :=
  [Traces.CallLogout "access.token" "refresh.token";
   Traces.CallRefresh 5000 "refresh.token";
   Traces.CallBlacklist "other.token" "refresh";
   Traces.CallBlacklist "other.token" "session";
   Traces.CallLogout "second.token" "other.token"].

End Fixture.


(** * Properties *)

(** ** Lookups and write-backs in the OTP collection *)

Section OTPLookup.
Import OTPService.
Variable verifyPassword : string -> string -> bool.

Lemma findOne_Some filter (s : OTPCollection) i r :
  OTP_findOne filter s = Some (i, r) ->
  s !! i = Some r /\ matches filter r.
Proof.
  unfold OTP_findOne. intros H. apply list_find_Some in H. tauto.
Qed.

(** Writing a document that still matches back to where it was found
    leaves it the first match. *)
Lemma findOne_write_back filter (s : OTPCollection) i r r' :
  OTP_findOne filter s = Some (i, r) ->
  matches filter r' ->
  OTP_findOne filter (<[i := r']> s) = Some (i, r').
Proof.
  unfold OTP_findOne. intros H Hm.
  apply list_find_Some in H as (Hi & _ & Hleast).
  apply list_find_Some. split_and!.
  - apply list_lookup_insert_eq. by eapply lookup_lt_Some.
  - done.
  - intros j y Hj Hlt. rewrite list_lookup_insert_ne in Hj by lia. eauto.
Qed.

Lemma matches_otp_filter p (d : doc) :
  matches (otp_filter p) d <->
  d !! "otpId" = Some (VStr (otpId p)) /\ d !! "otpType" = Some (VStr (otpType p)).
Proof.
  unfold matches, otp_filter. rewrite !Forall_cons, Forall_nil. simpl. tauto.
Qed.

Lemma matches_insert_isVerified p (d : doc) v :
  matches (otp_filter p) d -> matches (otp_filter p) (<["isVerified" := v]> d).
Proof.
  rewrite !matches_otp_filter. intros [? ?].
  by rewrite !lookup_insert_ne.
Qed.

Lemma matches_insert_isUsed p (d : doc) v :
  matches (otp_filter p) d -> matches (otp_filter p) (<["isUsed" := v]> d).
Proof.
  rewrite !matches_otp_filter. intros [? ?].
  by rewrite !lookup_insert_ne.
Qed.

(** A loaded document shows the stored value of every path of the
    schema and nothing under any other name. *)
Lemma OTP_hydrate_lookup (d : doc) k :
  OTP_hydrate d !! k = match OTP_type k with Some _ => d !! k | None => None end.
Proof.
  unfold OTP_hydrate. destruct (OTP_type k) as [ty |] eqn:Hk.
  - destruct (d !! k) as [v |] eqn:Hd.
    + apply map_lookup_filter_Some. split; [done |]. simpl. by rewrite Hk.
    + apply map_lookup_filter_None. left. done.
  - apply map_lookup_filter_None. right. intros v _. simpl. rewrite Hk.
    by intros [? ?].
Qed.

Lemma OTP_hydrate_path (d : doc) k ty :
  OTP_type k = Some ty -> OTP_hydrate d !! k = d !! k.
Proof. intros Hk. by rewrite OTP_hydrate_lookup, Hk. Qed.

Lemma OTP_hydrate_no_path (d : doc) k :
  OTP_type k = None -> OTP_hydrate d !! k = None.
Proof. intros Hk. by rewrite OTP_hydrate_lookup, Hk. Qed.

Lemma OTP_hydrate_insert_path (d : doc) k ty v :
  OTP_type k = Some ty -> OTP_hydrate (<[k := v]> d) = <[k := v]> (OTP_hydrate d).
Proof.
  intros Hk. apply map_eq. intros j. rewrite OTP_hydrate_lookup.
  destruct (decide (j = k)) as [-> | Hne].
  - by rewrite Hk, !lookup_insert_eq.
  - by rewrite !lookup_insert_ne, OTP_hydrate_lookup.
Qed.

Lemma OTP_hydrate_insert_no_path (d : doc) k v :
  OTP_type k = None -> OTP_hydrate (<[k := v]> d) = OTP_hydrate d.
Proof.
  intros Hk. apply map_eq. intros j. rewrite !OTP_hydrate_lookup.
  destruct (decide (j = k)) as [-> | Hne].
  - by rewrite Hk.
  - by rewrite lookup_insert_ne.
Qed.

Lemma OTP_hydrate_idemp (d : doc) : OTP_hydrate (OTP_hydrate d) = OTP_hydrate d.
Proof.
  apply map_eq. intros j. rewrite !OTP_hydrate_lookup. by destruct (OTP_type j).
Qed.

(** Writing the paths of a loaded document back changes nothing. *)
Lemma OTP_hydrate_union (d : doc) : OTP_hydrate d ∪ d = d.
Proof. apply map_subseteq_union, map_filter_subseteq. Qed.

Lemma alter_at {A} (f : A -> A) (l : list A) i x :
  l !! i = Some x -> alter f i l = <[i := f x]> l.
Proof.
  intros Hi. apply list_eq. intros j. destruct (decide (j = i)) as [-> | Hne].
  - rewrite list_lookup_alter_eq, Hi. simpl.
    symmetry. apply list_lookup_insert_eq. by eapply lookup_lt_Some.
  - by rewrite list_lookup_alter_ne, list_lookup_insert_ne.
Qed.

(** [save] after an assignment to a name that is no path: nothing is
    written. *)
Lemma OTP_save_no_path (s : OTPCollection) i stored k v :
  s !! i = Some stored -> OTP_type k = None ->
  OTP_save i (<[k := v]> (OTP_hydrate stored)) s = (Ok tt, s).
Proof.
  intros Hi Hk. unfold OTP_save. f_equal.
  rewrite (alter_at _ _ _ _ Hi).
  rewrite OTP_hydrate_insert_no_path, OTP_hydrate_idemp, OTP_hydrate_union by done.
  by apply list_insert_id.
Qed.

(** [save] after an assignment to a path: that field is written. *)
Lemma OTP_save_path (s : OTPCollection) i stored k ty v :
  s !! i = Some stored -> OTP_type k = Some ty ->
  OTP_save i (<[k := v]> (OTP_hydrate stored)) s
  = (Ok tt, <[i := <[k := v]> stored]> s).
Proof.
  intros Hi Hk. unfold OTP_save. f_equal.
  rewrite (alter_at _ _ _ _ Hi).
  rewrite (OTP_hydrate_insert_path _ _ ty), OTP_hydrate_idemp by done.
  by rewrite <- insert_union_l, OTP_hydrate_union.
Qed.

Lemma verifyOTP_not_found p (s : OTPCollection) :
  OTP_findOne (otp_filter p) s = None ->
  verifyOTP verifyPassword p s
  = (Throw (UnauthorizedError "Otp not found. It must have expired"), s).
Proof. intros H. unfold verifyOTP, bind, gets, throw. by rewrite H. Qed.

Lemma useOTP_not_found p (s : OTPCollection) :
  OTP_findOne (otp_filter p) s = None ->
  useOTP verifyPassword p s
  = (Throw (UnauthorizedError "Otp not found. It must have expired"), s).
Proof. intros H. unfold useOTP, bind, gets, throw. by rewrite H. Qed.

(** What [verifyOTP] does with the document it finds: the assignment to
    [isVerified] is lost, and the collection stays as it was. *)
Lemma verifyOTP_found p (s : OTPCollection) i r :
  OTP_findOne (otp_filter p) s = Some (i, r) ->
  verifyOTP verifyPassword p s =
    if truthy (r !! "isUsed") then
      (Throw (UnauthorizedError "OTP already used"), s)
    else if supplied_and_verified verifyPassword (otp p) (r !! "hashedOTP") then
      (Ok tt, s)
    else (Throw (UnauthorizedError "Invalid OTP"), s).
Proof.
  intros H. pose proof (findOne_Some _ _ _ _ H) as [Hi _].
  unfold verifyOTP, bind, gets, throw. rewrite H. simpl.
  rewrite (OTP_hydrate_path r "isUsed" TBoolean) by done.
  rewrite (OTP_hydrate_path r "hashedOTP" TString) by done.
  destruct (truthy (r !! "isUsed")); [done |].
  destruct (supplied_and_verified _ _ _); [| done].
  by apply OTP_save_no_path.
Qed.

(** What [useOTP] does with the document it finds: [multiUse] is no
    path of the schema and reads as [undefined], so [isUsed] is set
    whenever the token is accepted. *)
Lemma useOTP_found p (s : OTPCollection) i r :
  OTP_findOne (otp_filter p) s = Some (i, r) ->
  useOTP verifyPassword p s =
    if truthy (r !! "isUsed") then
      (Throw (UnauthorizedError "OTP already used"), s)
    else if supplied_and_verified verifyPassword (verificationToken p)
              (r !! "verificationToken") then
      (Ok (<["isUsed" := VBool true]> (OTP_hydrate r)),
       <[i := <["isUsed" := VBool true]> r]> s)
    else (Throw (UnauthorizedError "OTP verification failed"), s).
Proof.
  intros H. pose proof (findOne_Some _ _ _ _ H) as [Hi _].
  unfold useOTP, bind, gets, throw, ret. rewrite H. simpl.
  rewrite (OTP_hydrate_path r "isUsed" TBoolean) by done.
  rewrite (OTP_hydrate_path r "verificationToken" TString) by done.
  rewrite (OTP_hydrate_no_path r "multiUse") by done. simpl.
  destruct (truthy (r !! "isUsed")); [done |].
  destruct (supplied_and_verified _ _ _); [| done].
  pose proof (OTP_save_path s i r "isUsed" TBoolean (VBool true) Hi eq_refl) as Hs.
  unfold OTP_save in Hs. injection Hs as ->. done.
Qed.

(** After a pass of the TTL index no expired document is left. *)
Lemma ttl_reap_spec clock (s : OTPCollection) d :
  d ∈ ttl_reap clock s <-> d ∈ s /\ expired clock d = false.
Proof. unfold ttl_reap. rewrite list_elem_of_filter. tauto. Qed.

Lemma findOne_reaped clock filter (s : OTPCollection) :
  (forall d, d ∈ s -> matches filter d -> expired clock d = true) ->
  OTP_findOne filter (ttl_reap clock s) = None.
Proof.
  intros H. unfold OTP_findOne. apply list_find_None, Forall_forall.
  intros d [Hd He]%ttl_reap_spec Hm. specialize (H d Hd Hm). congruence.
Qed.

End OTPLookup.

(** ** Expiry (C1) *)

(** C1, as stated, fails: a stored record whose [expiresAt] (1000) lies
    before the clock reading (2000) is still found, and both [verifyOTP]
    and [useOTP] accept the correct code and verification token. *)
Lemma expired_record_still_validates :
  expired 2000 (Fixture.otp_record false 1000) = true /\
  (OTPService.verifyOTP Fixture.verifyPassword Fixture.otp_params
     [Fixture.otp_record false 1000]).1 = Ok tt /\
  is_ok (OTPService.useOTP Fixture.verifyPassword Fixture.otp_params
     [Fixture.otp_record false 1000]).1 = true.
Proof. vm_compute. done. Qed.

(** C1, amended: neither operation reads [expiresAt]; expiry is enforced
    by the TTL index alone.  Once a pass of that index has removed the
    records whose [expiresAt] has passed, both [verifyOTP] and [useOTP]
    fail with Unauthorized whatever code, token or [isUsed] flag is
    involved. *)
Theorem expired_otp_rejected_once_reaped
    (verifyPassword : string -> string -> bool)
    (clock : Z) (s : OTPCollection) (p : OTPService.OTPVerifyParams) :
  (forall d, d ∈ s -> matches (OTPService.otp_filter p) d ->
             expired clock d = true) ->
  OTPService.verifyOTP verifyPassword p (ttl_reap clock s)
  = (Throw (UnauthorizedError "Otp not found. It must have expired"),
     ttl_reap clock s) /\
  OTPService.useOTP verifyPassword p (ttl_reap clock s)
  = (Throw (UnauthorizedError "Otp not found. It must have expired"),
     ttl_reap clock s).
Proof.
  intros H. pose proof (findOne_reaped clock _ s H) as Hnone. split.
  - by apply verifyOTP_not_found.
  - by apply useOTP_not_found.
Qed.

Lemma expired_otp_rejected_once_reaped_witness :
  (forall d, d ∈ Fixture.stale_store ->
             matches (OTPService.otp_filter Fixture.otp_params) d ->
             expired 2000 d = true) /\
  OTPService.verifyOTP Fixture.verifyPassword Fixture.otp_params
    (ttl_reap 2000 Fixture.stale_store)
  = (Throw (UnauthorizedError "Otp not found. It must have expired"),
     ttl_reap 2000 Fixture.stale_store) /\
  OTPService.useOTP Fixture.verifyPassword Fixture.otp_params
    (ttl_reap 2000 Fixture.stale_store)
  = (Throw (UnauthorizedError "Otp not found. It must have expired"),
     ttl_reap 2000 Fixture.stale_store).
Proof.
  assert (Hexp : forall d, d ∈ Fixture.stale_store ->
            matches (OTPService.otp_filter Fixture.otp_params) d ->
            expired 2000 d = true).
  { intros d Hd _. unfold Fixture.stale_store in Hd.
    apply elem_of_cons in Hd as [-> | Hd]; [by vm_compute |].
    apply list_elem_of_singleton in Hd as ->. by vm_compute. }
  split; [exact Hexp |].
  exact (expired_otp_rejected_once_reaped Fixture.verifyPassword 2000
           Fixture.stale_store Fixture.otp_params Hexp).
Defined.

(** ** Creation and the create-then-use round trip (C2) *)

Section Creation.
Import OTPService.
Variable OTP_EXPIRATION : Z.
Variable encryptPassword : string -> string.
Variable verifyPassword : string -> string -> bool.

Lemma set_default_lookup_ne k v (d : doc) k' :
  k <> k' -> set_default k v d !! k' = d !! k'.
Proof.
  intros Hne. unfold set_default. destruct (d !! k); [done |].
  by rewrite lookup_insert_ne.
Qed.

Lemma set_default_lookup_eq k v (d : doc) :
  set_default k v d !! k = Some (default v (d !! k)).
Proof.
  unfold set_default. destruct (d !! k) eqn:E; simpl; [done |].
  by rewrite lookup_insert_eq.
Qed.

(** Defaults touch four properties only. *)
Lemma OTP_defaults_lookup_other env (obj : doc) k :
  k <> "otpType" -> k <> "isUsed" -> k <> "expiresAt" -> k <> "_id" ->
  OTP_defaults OTP_EXPIRATION env obj !! k = obj !! k.
Proof.
  intros. unfold OTP_defaults. by rewrite !set_default_lookup_ne.
Qed.

Lemma OTP_defaults_isUsed env (obj : doc) :
  OTP_defaults OTP_EXPIRATION env obj !! "isUsed"
  = Some (default (VBool false) (obj !! "isUsed")).
Proof.
  unfold OTP_defaults. rewrite set_default_lookup_ne by done.
  rewrite set_default_lookup_eq. by rewrite !set_default_lookup_ne.
Qed.

Lemma OTP_defaults_otpType env (obj : doc) :
  OTP_defaults OTP_EXPIRATION env obj !! "otpType"
  = Some (default (VStr "EMAIL") (obj !! "otpType")).
Proof.
  unfold OTP_defaults. rewrite set_default_lookup_eq.
  by rewrite !set_default_lookup_ne.
Qed.

Lemma OTP_cast_lookup env (obj : doc) k :
  OTP_cast env obj !! k = obj !! k ≫= cast_path env k.
Proof. apply map_lookup_imap. Qed.

(** A created document is built from the submitted object, completed
    with the defaults and put at the end of the collection. *)
Lemma OTP_create_Ok env (obj : doc) (s : OTPCollection) r s' :
  OTP_create OTP_EXPIRATION env obj s = (Ok r, s') ->
  r = OTP_defaults OTP_EXPIRATION env (OTP_cast env obj) /\ s' = (s ++ [r])%list.
Proof.
  unfold OTP_create. destruct (OTP_validate _ _ _); intros [= <- <-]; done.
Qed.

Lemma OTP_create_Throw env (obj : doc) (s : OTPCollection) e s' :
  OTP_create OTP_EXPIRATION env obj s = (Throw e, s') -> s' = s.
Proof.
  unfold OTP_create. destruct (OTP_validate _ _ _); by intros [= <- <-].
Qed.

(** An object without [hashedOTP] is refused, whatever else it holds. *)
Lemma OTP_create_without_hashedOTP env (obj : doc) (s : OTPCollection) :
  obj !! "hashedOTP" = None ->
  OTP_create OTP_EXPIRATION env obj s
  = (Throw (MongooseValidationError
       "OTP validation failed: hashedOTP: Path `hashedOTP` is required."), s).
Proof.
  intros Hnone. unfold OTP_create, OTP_validate, cast_ok.
  rewrite OTP_defaults_lookup_other by done.
  by rewrite OTP_cast_lookup, Hnone.
Qed.

Lemma createOTP_obj_keys userId otpType hashedOTP token multiUse :
  let obj := createOTP_obj userId otpType hashedOTP token multiUse in
  obj !! "hashedOTP" = None /\ obj !! "otpId" = None /\
  obj !! "isUsed" = None /\
  obj !! "otpType" = Some (VStr otpType) /\
  obj !! "verificationToken" = Some (VStr token) /\
  obj !! "multiUse" = Some (VBool multiUse).
Proof. unfold createOTP_obj. by simplify_map_eq. Qed.

(** Whatever the arguments, the object [createOTP] submits carries the
    hash under [otp], the schema requires [hashedOTP], and the insertion
    is refused. *)
Lemma createOTP_refused rnd env userId otpType multiUse (s : OTPCollection) :
  createOTP OTP_EXPIRATION encryptPassword rnd env userId otpType multiUse s
  = (Throw (MongooseValidationError
       "OTP validation failed: hashedOTP: Path `hashedOTP` is required."), s).
Proof.
  unfold createOTP. apply OTP_create_without_hashedOTP.
  by destruct (createOTP_obj_keys userId otpType
                 (encryptPassword (generateOTP (otp_draw rnd)))
                 (generateOTP (token_draw rnd)) multiUse) as (-> & _).
Qed.

End Creation.

(** C2, the round trip, does not hold of the code.  Take any call of
    [createOTP] and a hasher that, like every salted hasher, does not
    accept the plain verification token as a hash of itself.  Then
    (1) [createOTP] produces no record: the insertion is refused;
    (2) had the submitted object been stored as it is, [useOTP] with the
        record's [_id], its type and the generated token would not find
        it, as no property [otpId] exists;
    (3) had it been stored under that [otpId], [useOTP] would find it and
        reject the token, which [createOTP] stores unhashed while
        [useOTP] checks it with [verifyPassword]. *)
Theorem createOTP_useOTP_round_trip_broken
    (OTP_EXPIRATION : Z)
    (encryptPassword : string -> string)
    (verifyPassword : string -> string -> bool)
    (rnd : OTPService.Entropy) (env : Fresh)
    (userId : val) (otpType : string) (multiUse : bool) :
  let token := OTPService.generateOTP (OTPService.token_draw rnd) in
  let stored :=
    OTP_defaults OTP_EXPIRATION env
      (OTPService.createOTP_obj userId otpType
         (encryptPassword (OTPService.generateOTP (OTPService.otp_draw rnd)))
         token multiUse) in
  let p := {| OTPService.otpId := new_hex env;
              OTPService.otpType := otpType;
              OTPService.otp := None;
              OTPService.verificationToken := Some token |} in
  verifyPassword token token = false ->
  (forall s,
     OTPService.createOTP OTP_EXPIRATION encryptPassword rnd env
       userId otpType multiUse s
     = (Throw (MongooseValidationError
          "OTP validation failed: hashedOTP: Path `hashedOTP` is required."), s)) /\
  OTPService.useOTP verifyPassword p [stored]
  = (Throw (UnauthorizedError "Otp not found. It must have expired"), [stored]) /\
  OTPService.useOTP verifyPassword p [<["otpId" := VStr (new_hex env)]> stored]
  = (Throw (UnauthorizedError "OTP verification failed"),
     [<["otpId" := VStr (new_hex env)]> stored]).
Proof.
  intros token stored p Hplain.
  destruct (createOTP_obj_keys userId otpType
              (encryptPassword (OTPService.generateOTP (OTPService.otp_draw rnd)))
              token multiUse) as (_ & HotpId & HisUsed & HotpType & Htoken & _).
  split_and!.
  - intros s. apply createOTP_refused.
  - apply useOTP_not_found. unfold OTP_findOne.
    apply list_find_None, Forall_singleton.
    rewrite matches_otp_filter. intros [Hid _]. simpl in Hid.
    unfold stored in Hid.
    rewrite OTP_defaults_lookup_other in Hid by done. congruence.
  - set (d := <["otpId" := VStr (new_hex env)]> stored).
    assert (Hfind : OTP_findOne (OTPService.otp_filter p) [d] = Some (0%nat, d)).
    { unfold OTP_findOne. apply list_find_Some. split_and!; [done | | intros; lia].
      apply matches_otp_filter. unfold d, stored. simpl. split.
      - by rewrite lookup_insert_eq.
      - rewrite lookup_insert_ne by done.
        rewrite OTP_defaults_otpType, HotpType. done. }
    rewrite (useOTP_found _ _ _ _ _ Hfind).
    assert (d !! "isUsed" = Some (VBool false)) as ->.
    { unfold d, stored. rewrite lookup_insert_ne by done.
      by rewrite OTP_defaults_isUsed, HisUsed. }
    assert (d !! "verificationToken" = Some (VStr token)) as ->.
    { unfold d, stored. rewrite lookup_insert_ne by done.
      by rewrite OTP_defaults_lookup_other. }
    simpl. rewrite Hplain. by rewrite andb_false_r.
Qed.

Lemma createOTP_useOTP_round_trip_broken_witness :
  Fixture.verifyPassword "550000" "550000" = false /\
  (OTPService.createOTP 600 Fixture.encryptPassword Fixture.entropy0
     Fixture.fresh0 (VOid 2 Fixture.user_hex) "EMAIL" false []).1
  = Throw (MongooseValidationError
      "OTP validation failed: hashedOTP: Path `hashedOTP` is required.").
Proof.
  split; [reflexivity |].
  pose proof (createOTP_useOTP_round_trip_broken 600 Fixture.encryptPassword
    Fixture.verifyPassword Fixture.entropy0 Fixture.fresh0
    (VOid 2 Fixture.user_hex) "EMAIL" false eq_refl) as (Hrefused & _).
  by rewrite Hrefused.
Defined.

(** ** Blacklists and token rotation (C3, C4, C5, C10) *)

Section Blacklists.
Import AuthService.

Lemma isTokenBlacklisted_refresh token (db : AuthDb) :
  isTokenBlacklisted token "refresh" db
  = bool_decide (token ∈@{list string} blacklistRefreshModel db).
Proof.
  unfold isTokenBlacklisted, Blacklist_findOne. simpl.
  by destruct (bool_decide (token ∈@{list string} blacklistRefreshModel db)).
Qed.

Lemma isTokenBlacklisted_access token (db : AuthDb) :
  isTokenBlacklisted token "access" db
  = bool_decide (token ∈@{list string} blacklistAccessModel db).
Proof.
  unfold isTokenBlacklisted, Blacklist_findOne. simpl.
  by destruct (bool_decide (token ∈@{list string} blacklistAccessModel db)).
Qed.

(** A first insertion of a non-empty token succeeds and appends it. *)
Lemma blacklistToken_refresh_new token (db : AuthDb) :
  token <> "" -> token ∉ blacklistRefreshModel db ->
  blacklistToken token "refresh" db
  = (Ok tt, {| blacklistAccessModel := blacklistAccessModel db;
               blacklistRefreshModel := (blacklistRefreshModel db ++ [token])%list |}).
Proof.
  intros Hne Hnew. unfold blacklistToken, try_catch, on_refresh, Blacklist_create.
  simpl. by rewrite !bool_decide_eq_false_2.
Qed.

Lemma blacklistToken_access_new token (db : AuthDb) :
  token <> "" -> token ∉ blacklistAccessModel db ->
  blacklistToken token "access" db
  = (Ok tt, {| blacklistAccessModel := (blacklistAccessModel db ++ [token])%list;
               blacklistRefreshModel := blacklistRefreshModel db |}).
Proof.
  intros Hne Hnew. unfold blacklistToken, try_catch, on_access, Blacklist_create.
  simpl. by rewrite !bool_decide_eq_false_2.
Qed.

(** A second insertion is an integrity conflict and writes nothing. *)
Lemma blacklistToken_refresh_again token (db : AuthDb) :
  token <> "" -> token ∈ blacklistRefreshModel db ->
  blacklistToken token "refresh" db
  = (Throw (IntegrityError "Token already blacklisted"), db).
Proof.
  intros Hne Hin. unfold blacklistToken, try_catch, on_refresh, Blacklist_create.
  simpl. rewrite bool_decide_eq_false_2 by done.
  rewrite bool_decide_eq_true_2 by done. simpl. by destruct db.
Qed.

Lemma blacklistToken_access_again token (db : AuthDb) :
  token <> "" -> token ∈ blacklistAccessModel db ->
  blacklistToken token "access" db
  = (Throw (IntegrityError "Token already blacklisted"), db).
Proof.
  intros Hne Hin. unfold blacklistToken, try_catch, on_access, Blacklist_create.
  simpl. rewrite bool_decide_eq_false_2 by done.
  rewrite bool_decide_eq_true_2 by done. simpl. by destruct db.
Qed.

(** A failed insertion leaves both blacklists as they were. *)
Lemma blacklistToken_Throw token model (db : AuthDb) e db' :
  blacklistToken token model db = (Throw e, db') -> db' = db.
Proof.
  unfold blacklistToken, try_catch, on_access, on_refresh, Blacklist_create, throw.
  destruct db as [a r]. simpl.
  repeat case_bool_decide; simpl; repeat case_bool_decide;
    intros [= <- <-]; done.
Qed.

End Blacklists.

Section Rotation.
Import AuthService AuthController.
Variables JWT_VERIFYING_KEY JWT_ALGORITHM JWT_SIGNING_KEY : string.
Variables JWT_REFRESH_TOKEN_EXPIRATION JWT_ACCESS_TOKEN_EXPIRATION : string.
Variable signAsync : doc -> JwtSignOptions -> outcome error string.
Variable verify : string -> JwtVerifyOptions -> Z -> outcome error doc.
Variable Users : Type.
Variable getUser : Users -> option string -> doc -> outcome error (option doc).
Variable toISOString : Z -> string.

Local Abbreviation options :=
  (refresh_verify_options JWT_VERIFYING_KEY JWT_ALGORITHM
     JWT_REFRESH_TOKEN_EXPIRATION).
Local Abbreviation getTokens' :=
  (getTokens JWT_ALGORITHM JWT_SIGNING_KEY JWT_REFRESH_TOKEN_EXPIRATION
     JWT_ACCESS_TOKEN_EXPIRATION signAsync toISOString).
Local Abbreviation refreshTokens_try' :=
  (refreshTokens_try JWT_VERIFYING_KEY JWT_ALGORITHM JWT_SIGNING_KEY
     JWT_REFRESH_TOKEN_EXPIRATION JWT_ACCESS_TOKEN_EXPIRATION
     signAsync verify Users getUser toISOString).
Local Abbreviation refreshTokens' :=
  (refreshTokens JWT_VERIFYING_KEY JWT_ALGORITHM JWT_SIGNING_KEY
     JWT_REFRESH_TOKEN_EXPIRATION JWT_ACCESS_TOKEN_EXPIRATION
     signAsync verify Users getUser toISOString).
Local Abbreviation refresh' :=
  (refresh JWT_VERIFYING_KEY JWT_ALGORITHM JWT_SIGNING_KEY
     JWT_REFRESH_TOKEN_EXPIRATION JWT_ACCESS_TOKEN_EXPIRATION
     signAsync verify Users getUser toISOString).

(** The outer [catch] replaces whatever the [try] block threw. *)
Lemma refreshTokens_catch users clock token (db : AuthDb) :
  refreshTokens' users clock token db =
    match refreshTokens_try' users clock token db with
    | (Ok tokens, db') => (Ok tokens, db')
    | (Throw _, db') => (Throw (UnauthorizedError "Invalid token"), db')
    end.
Proof. unfold refreshTokens, try_catch, throw. by repeat case_match. Qed.

Lemma refresh_of_refreshTokens users clock token (db : AuthDb) :
  refresh' users clock token db =
    match refreshTokens_try' users clock token db with
    | (Ok tokens, db') => (Ok tokens, db')
    | (Throw _, db') => (Throw (UnauthorizedException "Invalid token"), db')
    end.
Proof.
  unfold refresh, handler. rewrite refreshTokens_catch.
  by destruct (refreshTokens_try' users clock token db) as [[tokens | cause] db'].
Qed.

Lemma refreshTokens_try_blacklisted users clock token (db : AuthDb) :
  token ∈ blacklistRefreshModel db ->
  refreshTokens_try' users clock token db
  = (Throw (ForbiddenError "Token blacklisted"), db).
Proof.
  intros Hin. unfold refreshTokens_try, bind, gets, throw.
  rewrite isTokenBlacklisted_refresh. by rewrite bool_decide_eq_true_2.
Qed.

Lemma refreshTokens_try_wrong_type users clock token (db : AuthDb) decoded :
  token ∉ blacklistRefreshModel db ->
  verify token options clock = Ok decoded ->
  decoded !! "type" <> Some (VStr "refresh") ->
  refreshTokens_try' users clock token db
  = (Throw (ForbiddenError "Invalid token type"), db).
Proof.
  intros Hnew Hv Hty. unfold refreshTokens_try, bind, gets, throw, lift.
  rewrite isTokenBlacklisted_refresh, bool_decide_eq_false_2 by done.
  rewrite Hv. by rewrite bool_decide_eq_true_2.
Qed.

(** C3.  Whenever [refreshTokens] fails, at whichever step and for
    whichever internal cause, the caller gets the one error
    Unauthorized "Invalid token", from the service and, mapped to the
    HTTP exception of the same kind, from the controller. *)
Theorem refresh_failures_collapse_to_Unauthorized
    users clock token (db : AuthDb) :
  is_ok (refreshTokens' users clock token db).1 = false ->
  (exists cause, (refreshTokens_try' users clock token db).1 = Throw cause) /\
  (refreshTokens' users clock token db).1
  = Throw (UnauthorizedError "Invalid token") /\
  (refresh' users clock token db).1
  = Throw (UnauthorizedException "Invalid token").
Proof.
  rewrite refresh_of_refreshTokens, refreshTokens_catch.
  destruct (refreshTokens_try' users clock token db) as [[tokens | cause] db'];
    simpl; [done |]. eauto.
Qed.

(** C4, amended.  A token whose decoded [type] is not ['refresh'] makes
    the refresh operation fail with Unauthorized "Invalid token", at the
    service and at the controller, and nothing is written; the Forbidden
    "Invalid token type" raised inside the [try] block, when the token is
    not blacklisted, never leaves it. *)
Theorem refresh_wrong_type_is_Unauthorized
    users clock token (db : AuthDb) decoded :
  verify token options clock = Ok decoded ->
  decoded !! "type" <> Some (VStr "refresh") ->
  refreshTokens' users clock token db
  = (Throw (UnauthorizedError "Invalid token"), db) /\
  refresh' users clock token db
  = (Throw (UnauthorizedException "Invalid token"), db) /\
  (token ∉ blacklistRefreshModel db ->
   refreshTokens_try' users clock token db
   = (Throw (ForbiddenError "Invalid token type"), db)).
Proof.
  intros Hv Hty.
  rewrite refresh_of_refreshTokens, refreshTokens_catch.
  destruct (decide (token ∈ blacklistRefreshModel db)) as [Hin | Hnew].
  - rewrite refreshTokens_try_blacklisted by done. done.
  - rewrite (refreshTokens_try_wrong_type _ _ _ _ decoded) by done. done.
Qed.

(** C5, amended.  Take a refresh token that is not blacklisted, verifies
    with [type] ['refresh'], and names a user for whom a pair can be
    issued.  The first call returns that pair of tokens and appends the
    token to the refresh blacklist.  A second call with the same string,
    at any later clock reading, fails because of the blacklist and writes
    nothing more; the Forbidden "Token blacklisted" raised inside the
    [try] block does not leave it, and the caller gets the Unauthorized
    "Invalid token" of every other refresh failure, from the service and
    from the controller. *)
Theorem refresh_twice_second_is_Unauthorized
    users clock clock' token (db : AuthDb) decoded sub user tokens :
  token <> "" ->
  isTokenBlacklisted token "refresh" db = false ->
  verify token options clock = Ok decoded ->
  decoded !! "type" = Some (VStr "refresh") ->
  createFromHexString (default (VStr "") (decoded !! "sub")) = Ok sub ->
  getUser users (Some sub) ∅ = Ok (Some user) ->
  getTokens' user clock = Ok tokens ->
  let db1 := {| blacklistAccessModel := blacklistAccessModel db;
                blacklistRefreshModel :=
                  (blacklistRefreshModel db ++ [token])%list |} in
  refreshTokens' users clock token db = (Ok tokens, db1) /\
  refresh' users clock token db = (Ok tokens, db1) /\
  isTokenBlacklisted token "refresh" db1 = true /\
  refreshTokens_try' users clock' token db1
  = (Throw (ForbiddenError "Token blacklisted"), db1) /\
  refreshTokens' users clock' token db1
  = (Throw (UnauthorizedError "Invalid token"), db1) /\
  refresh' users clock' token db1
  = (Throw (UnauthorizedException "Invalid token"), db1).
Proof.
  intros Hne Hbl Hv Hty Hid Hu Htokens db1.
  rewrite isTokenBlacklisted_refresh in Hbl.
  apply bool_decide_eq_false in Hbl.
  assert (Hin : token ∈ blacklistRefreshModel db1).
  { unfold db1. simpl. apply elem_of_app. right. by apply list_elem_of_singleton. }
  assert (Hfirst : refreshTokens_try' users clock token db = (Ok tokens, db1)).
  { unfold refreshTokens_try, bind, gets, throw, lift, ret.
    rewrite isTokenBlacklisted_refresh, bool_decide_eq_false_2 by done.
    rewrite Hv, Hty. rewrite bool_decide_eq_false_2 by (intros H; by apply H).
    rewrite Hid, Hu, Htokens.
    by rewrite blacklistToken_refresh_new. }
  split_and!.
  - by rewrite refreshTokens_catch, Hfirst.
  - by rewrite refresh_of_refreshTokens, Hfirst.
  - rewrite isTokenBlacklisted_refresh. by apply bool_decide_eq_true_2.
  - by apply refreshTokens_try_blacklisted.
  - rewrite refreshTokens_catch. by rewrite refreshTokens_try_blacklisted.
  - rewrite refresh_of_refreshTokens. by rewrite refreshTokens_try_blacklisted.
Qed.

End Rotation.

Lemma refresh_failures_collapse_to_Unauthorized_witness :
  (AuthController.refresh "key" "HS256" "key" "7d" "1h"
     Fixture.signAsync Fixture.verify (list doc) Fixture.getUser
     Fixture.toISOString [Fixture.alice] 5000 "garbage" Fixture.db0).1
  = Throw (UnauthorizedException "Invalid token").
Proof.
  exact (proj2 (proj2 (refresh_failures_collapse_to_Unauthorized
    "key" "HS256" "key" "7d" "1h" Fixture.signAsync Fixture.verify (list doc)
    Fixture.getUser Fixture.toISOString [Fixture.alice] 5000 "garbage"
    Fixture.db0 eq_refl))).
Defined.

(** C4, as stated, fails: an access token, which verifies and decodes
    to [type] ['access'], makes the refresh endpoint answer with
    Unauthorized, not with Forbidden. *)
Lemma refresh_with_access_token_is_not_Forbidden :
  Fixture.verify "access.token"
    (AuthService.refresh_verify_options "key" "HS256" "7d") 5000
  = Ok Fixture.access_payload /\
  Fixture.access_payload !! "type" = Some (VStr "access") /\
  (AuthController.refresh "key" "HS256" "key" "7d" "1h"
     Fixture.signAsync Fixture.verify (list doc) Fixture.getUser
     Fixture.toISOString [Fixture.alice] 5000 "access.token" Fixture.db0).1
  = Throw (UnauthorizedException "Invalid token").
Proof. vm_compute. done. Qed.

Lemma refresh_wrong_type_is_Unauthorized_witness :
  AuthController.refresh "key" "HS256" "key" "7d" "1h"
    Fixture.signAsync Fixture.verify (list doc) Fixture.getUser
    Fixture.toISOString [Fixture.alice] 5000 "access.token" Fixture.db0
  = (Throw (UnauthorizedException "Invalid token"), Fixture.db0).
Proof.
  assert (Hty : Fixture.access_payload !! "type" <> Some (VStr "refresh"))
    by (vm_compute; congruence).
  exact (proj1 (proj2 (refresh_wrong_type_is_Unauthorized
    "key" "HS256" "key" "7d" "1h" Fixture.signAsync Fixture.verify (list doc)
    Fixture.getUser Fixture.toISOString [Fixture.alice] 5000 "access.token"
    Fixture.db0 Fixture.access_payload eq_refl Hty))).
Defined.

(** C5, as stated, fails: the second call with a consumed refresh token
    is not answered with an error of its own.  The endpoint answers
    Unauthorized "Invalid token", not Forbidden, exactly as it answers a
    string that never was a token. *)
Lemma second_refresh_is_not_Forbidden :
  AuthController.refresh "key" "HS256" "key" "7d" "1h"
    Fixture.signAsync Fixture.verify (list doc) Fixture.getUser
    Fixture.toISOString [Fixture.alice] 5000 "refresh.token" Fixture.db0
  = (Ok Fixture.alice_tokens, Fixture.db3) /\
  (AuthController.refresh "key" "HS256" "key" "7d" "1h"
     Fixture.signAsync Fixture.verify (list doc) Fixture.getUser
     Fixture.toISOString [Fixture.alice] 9000 "refresh.token" Fixture.db3).1
  = Throw (UnauthorizedException "Invalid token") /\
  (AuthController.refresh "key" "HS256" "key" "7d" "1h"
     Fixture.signAsync Fixture.verify (list doc) Fixture.getUser
     Fixture.toISOString [Fixture.alice] 9000 "garbage" Fixture.db3).1
  = Throw (UnauthorizedException "Invalid token").
Proof. vm_compute. done. Qed.

Lemma refresh_twice_second_is_Unauthorized_witness :
  AuthController.refresh "key" "HS256" "key" "7d" "1h"
    Fixture.signAsync Fixture.verify (list doc) Fixture.getUser
    Fixture.toISOString [Fixture.alice] 5000 "refresh.token" Fixture.db0
  = (Ok Fixture.alice_tokens, Fixture.db3) /\
  AuthController.refresh "key" "HS256" "key" "7d" "1h"
    Fixture.signAsync Fixture.verify (list doc) Fixture.getUser
    Fixture.toISOString [Fixture.alice] 9000 "refresh.token" Fixture.db3
  = (Throw (UnauthorizedException "Invalid token"), Fixture.db3).
Proof.
  assert (Hne : "refresh.token" <> "") by discriminate.
  pose proof (refresh_twice_second_is_Unauthorized
    "key" "HS256" "key" "7d" "1h" Fixture.signAsync Fixture.verify (list doc)
    Fixture.getUser Fixture.toISOString [Fixture.alice] 5000 9000
    "refresh.token" Fixture.db0 Fixture.refresh_payload Fixture.user_hex
    Fixture.alice Fixture.alice_tokens
    Hne eq_refl eq_refl eq_refl eq_refl eq_refl eq_refl)
    as (_ & H1 & _ & _ & _ & H2).
  exact (conj H1 H2).
Defined.

(** ** Consumption and verification (C6, C8, C9) *)

Section Consumption.
Import OTPService Runs.
Variable verifyPassword : string -> string -> bool.

Lemma otp_filter_ext p q :
  otpId q = otpId p -> otpType q = otpType p -> otp_filter q = otp_filter p.
Proof. unfold otp_filter. by intros -> ->. Qed.

(** What a [verifyOTP] call can do: it returns or throws, and the
    collection is as it was. *)
Lemma verifyOTP_cases p (s : OTPCollection) :
  (is_ok (verifyOTP verifyPassword p s).1 = false /\
   (verifyOTP verifyPassword p s).2 = s) \/
  (exists i r,
     OTP_findOne (otp_filter p) s = Some (i, r) /\
     truthy (r !! "isUsed") = false /\
     supplied_and_verified verifyPassword (otp p) (r !! "hashedOTP") = true /\
     verifyOTP verifyPassword p s = (Ok tt, s)).
Proof.
  destruct (OTP_findOne (otp_filter p) s) as [[i r] |] eqn:Hfind.
  - rewrite (verifyOTP_found _ _ _ _ _ Hfind).
    destruct (truthy (r !! "isUsed")) eqn:Hused; [by left |].
    destruct (supplied_and_verified _ _ _) eqn:Hok; [| by left].
    right. by exists i, r.
  - rewrite (verifyOTP_not_found _ _ _ Hfind). by left.
Qed.

Lemma verifyOTP_writes_nothing p (s : OTPCollection) :
  (verifyOTP verifyPassword p s).2 = s.
Proof.
  destruct (verifyOTP_cases p s) as [[_ ->] | (i & r & _ & _ & _ & ->)]; done.
Qed.

(** What a [useOTP] call can do to the collection. *)
Lemma useOTP_cases p (s : OTPCollection) :
  (is_ok (useOTP verifyPassword p s).1 = false /\
   (useOTP verifyPassword p s).2 = s) \/
  (exists i r,
     OTP_findOne (otp_filter p) s = Some (i, r) /\
     truthy (r !! "isUsed") = false /\
     supplied_and_verified verifyPassword (verificationToken p)
       (r !! "verificationToken") = true /\
     useOTP verifyPassword p s
     = (Ok (<["isUsed" := VBool true]> (OTP_hydrate r)),
        <[i := <["isUsed" := VBool true]> r]> s)).
Proof.
  destruct (OTP_findOne (otp_filter p) s) as [[i r] |] eqn:Hfind.
  - rewrite (useOTP_found _ _ _ _ _ Hfind).
    destruct (truthy (r !! "isUsed")) eqn:Hused; [by left |].
    destruct (supplied_and_verified _ _ _) eqn:Hok; [| by left].
    right. by exists i, r.
  - rewrite (useOTP_not_found _ _ _ Hfind). by left.
Qed.

(** A used record answers every later [useOTP] and [verifyOTP] on its
    identifier with "OTP already used". *)
Lemma used_record_rejects q (s : OTPCollection) i r :
  OTP_findOne (otp_filter q) s = Some (i, r) ->
  truthy (r !! "isUsed") = true ->
  useOTP verifyPassword q s = (Throw (UnauthorizedError "OTP already used"), s)
  /\ verifyOTP verifyPassword q s
     = (Throw (UnauthorizedError "OTP already used"), s).
Proof.
  intros Hfind Hused.
  rewrite (useOTP_found _ _ _ _ _ Hfind), (verifyOTP_found _ _ _ _ _ Hfind).
  by rewrite Hused.
Qed.

(** Once [useOTP] has returned, the record it found is used. *)
Lemma useOTP_then_used p q (s : OTPCollection) i r :
  OTP_findOne (otp_filter p) s = Some (i, r) ->
  otpId q = otpId p -> otpType q = otpType p ->
  let s1 := <[i := <["isUsed" := VBool true]> r]> s in
  useOTP verifyPassword q s1 = (Throw (UnauthorizedError "OTP already used"), s1)
  /\ verifyOTP verifyPassword q s1
     = (Throw (UnauthorizedError "OTP already used"), s1).
Proof.
  intros Hfind Hid Hty s1.
  pose proof (findOne_Some _ _ _ _ Hfind) as [_ Hm].
  eapply used_record_rejects.
  - rewrite (otp_filter_ext p q Hid Hty).
    eapply findOne_write_back; [done |]. by apply matches_insert_isUsed.
  - by rewrite lookup_insert_eq.
Qed.

(** Setting [isUsed] keeps a stored document well formed. *)
Lemma path_ok_insert_ne (d : doc) k k' v needed :
  k <> k' -> path_ok (<[k := v]> d) k' needed = path_ok d k' needed.
Proof. intros Hne. unfold path_ok. by rewrite lookup_insert_ne. Qed.

Lemma OTP_wellformed_insert_isUsed (d : doc) b :
  OTP_wellformed d = true ->
  OTP_wellformed (<["isUsed" := VBool b]> d) = true.
Proof.
  unfold OTP_wellformed.
  rewrite (path_ok_insert_ne d "isUsed" "_id") by done.
  rewrite (path_ok_insert_ne d "isUsed" "hashedOTP") by done.
  rewrite (path_ok_insert_ne d "isUsed" "userId") by done.
  rewrite (path_ok_insert_ne d "isUsed" "expiresAt") by done.
  rewrite (path_ok_insert_ne d "isUsed" "otpType") by done.
  rewrite (path_ok_insert_ne d "isUsed" "verificationToken") by done.
  assert (path_ok (<["isUsed" := VBool b]> d) "isUsed" true = true) as ->.
  { unfold path_ok. by rewrite lookup_insert_eq. }
  intros H. repeat (apply andb_prop in H as [H ?]).
  by repeat (apply andb_true_intro; split).
Qed.

(** C6.  Multiple use does not hold of the code.  [createOTP] hands
    [multiUse] to the model and [useOTP] tests [otpRecord.multiUse], but
    the schema declares no such path, so no loaded document has the
    property.  Let [useOTP] find an unused record, its paths stored as
    the model writes them, whose stored verification token the supplied
    one verifies against.  Then, whatever the stored document holds
    under [multiUse], the call returns the record with [isUsed] set and
    stores the flag; every later [useOTP] on that identifier and type,
    whatever token it brings, fails with "OTP already used"; of two or
    more successive calls only the first returns.  So single use holds,
    of every record. *)
Theorem useOTP_consumes_every_record
    (s : OTPCollection) (p : OTPVerifyParams) i r :
  OTP_findOne (otp_filter p) s = Some (i, r) ->
  OTP_wellformed r = true ->
  truthy (r !! "isUsed") = false ->
  supplied_and_verified verifyPassword (verificationToken p)
    (r !! "verificationToken") = true ->
  let s1 := <[i := <["isUsed" := VBool true]> r]> s in
  OTP_hydrate r !! "multiUse" = None /\
  useOTP verifyPassword p s
  = (Ok (<["isUsed" := VBool true]> (OTP_hydrate r)), s1) /\
  (forall q, otpId q = otpId p -> otpType q = otpType p ->
     useOTP verifyPassword q s1
     = (Throw (UnauthorizedError "OTP already used"), s1)) /\
  (forall n, useOTP_times verifyPassword (S (S n)) p s = (false, s1)).
Proof.
  intros Hfind _ Hused Hok s1.
  assert (Hone : useOTP verifyPassword p s
                 = (Ok (<["isUsed" := VBool true]> (OTP_hydrate r)), s1)).
  { by rewrite (useOTP_found _ _ _ _ _ Hfind), Hused, Hok. }
  assert (Hlater : forall q, otpId q = otpId p -> otpType q = otpType p ->
            useOTP verifyPassword q s1
            = (Throw (UnauthorizedError "OTP already used"), s1)).
  { intros q Hid Hty. by apply (useOTP_then_used p q s i r). }
  split_and!; [by apply OTP_hydrate_no_path | done | done |].
  intros n. simpl. by rewrite Hone, (Hlater p).
Qed.

End Consumption.

Lemma useOTP_consumes_every_record_witness :
  Fixture.otp_record true 900000 !! "multiUse" = Some (VBool true) /\
  Runs.useOTP_times Fixture.verifyPassword 2 Fixture.otp_params Fixture.live_store
  = (false,
     <[1%nat := <["isUsed" := VBool true]> (Fixture.otp_record true 900000)]>
       Fixture.live_store).
Proof.
  split; [reflexivity |].
  exact (proj2 (proj2 (proj2 (useOTP_consumes_every_record
    Fixture.verifyPassword Fixture.live_store Fixture.otp_params 1%nat
    (Fixture.otp_record true 900000) eq_refl eq_refl eq_refl eq_refl))) 0%nat).
Defined.

Section Verification.
Import OTPService Runs.
Variable verifyPassword : string -> string -> bool.

(** C8.  The mark of verification does not hold of the code:
    [verifyOTP] assigns [isVerified] and calls [save], but the schema
    declares no such path, so the mark is not stored.  Let [verifyOTP]
    find an unused record, its paths stored as the model writes them,
    whose stored hash the supplied code verifies against.  Then the call
    returns and the collection is exactly as it was: [isUsed] and every
    other field of every record are unchanged, and the record has not
    been given an [isVerified].  The same call on the resulting
    collection therefore returns again.  Once a [useOTP] on that
    identifier and type has returned in between, it fails with "OTP
    already used".  No call of [verifyOTP] at all, with whatever
    parameters, changes a record. *)
Theorem verifyOTP_stores_no_mark
    (s : OTPCollection) (p : OTPVerifyParams) i r :
  OTP_findOne (otp_filter p) s = Some (i, r) ->
  OTP_wellformed r = true ->
  truthy (r !! "isUsed") = false ->
  supplied_and_verified verifyPassword (otp p) (r !! "hashedOTP") = true ->
  verifyOTP verifyPassword p s = (Ok tt, s) /\
  (verifyOTP verifyPassword p s).2 !! i = Some r /\
  verifyOTP verifyPassword p (verifyOTP verifyPassword p s).2
  = (Ok tt, (verifyOTP verifyPassword p s).2) /\
  (forall q r2 s2,
     otpId q = otpId p -> otpType q = otpType p ->
     useOTP verifyPassword q (verifyOTP verifyPassword p s).2 = (Ok r2, s2) ->
     s2 = <[i := <["isUsed" := VBool true]> r]> s /\
     verifyOTP verifyPassword p s2
     = (Throw (UnauthorizedError "OTP already used"), s2)) /\
  (forall q j d, s !! j = Some d -> OTP_wellformed d = true ->
     (verifyOTP verifyPassword q s).2 !! j = Some d).
Proof.
  intros Hfind _ Hused Hok.
  pose proof (findOne_Some _ _ _ _ Hfind) as [Hi Hm].
  assert (Hrun : verifyOTP verifyPassword p s = (Ok tt, s)).
  { by rewrite (verifyOTP_found _ _ _ _ _ Hfind), Hused, Hok. }
  rewrite Hrun. simpl. split_and!; try done.
  - intros q r2 s2 Hid Hty Huse.
    assert (Hfind' : OTP_findOne (otp_filter q) s = Some (i, r))
      by by rewrite (otp_filter_ext p q Hid Hty).
    rewrite (useOTP_found _ _ _ _ _ Hfind'), Hused in Huse.
    destruct (supplied_and_verified verifyPassword (verificationToken q) _);
      [| discriminate].
    injection Huse as <- <-. split; [done |].
    by apply (useOTP_then_used verifyPassword p p s i r).
  - intros q j d Hj _. by rewrite verifyOTP_writes_nothing.
Qed.

End Verification.

Lemma verifyOTP_stores_no_mark_witness :
  OTPService.verifyOTP Fixture.verifyPassword Fixture.otp_params
    Fixture.live_store
  = (Ok tt, Fixture.live_store) /\
  Fixture.live_store !! 1%nat = Some (Fixture.otp_record true 900000) /\
  Fixture.otp_record true 900000 !! "isVerified" = None.
Proof.
  split; [| split; reflexivity].
  exact (proj1 (verifyOTP_stores_no_mark Fixture.verifyPassword
    Fixture.live_store Fixture.otp_params 1%nat
    (Fixture.otp_record true 900000) eq_refl eq_refl eq_refl eq_refl)).
Defined.

Section UsedFlag.
Import OTPService Runs.
Variable OTP_EXPIRATION : Z.
Variable encryptPassword : string -> string.
Variable verifyPassword : string -> string -> bool.

Local Abbreviation run_call' :=
  (run_call OTP_EXPIRATION encryptPassword verifyPassword).
Local Abbreviation run_calls' :=
  (run_calls OTP_EXPIRATION encryptPassword verifyPassword).

(** [useOTP] either leaves a record alone or, when it returns, sets the
    [isUsed] of the record it found, which was not used, and changes
    nothing else in it. *)
Lemma useOTP_sets_isUsed p (s : OTPCollection) j d :
  s !! j = Some d ->
  exists d', (useOTP verifyPassword p s).2 !! j = Some d' /\
    (d' = d \/
     (truthy (d !! "isUsed") = false /\ d' = <["isUsed" := VBool true]> d /\
      is_ok (useOTP verifyPassword p s).1 = true)).
Proof.
  intros Hj.
  destruct (useOTP_cases verifyPassword p s)
    as [[_ ->] | (i & r & Hfind & Hused & _ & ->)]; [exists d; tauto |].
  apply findOne_Some in Hfind as [Hi _]. simpl.
  destruct (decide (j = i)) as [-> | Hne].
  - assert (d = r) as -> by congruence.
    exists (<["isUsed" := VBool true]> r). split.
    + apply list_lookup_insert_eq. by eapply lookup_lt_Some.
    + by right.
  - exists d. rewrite list_lookup_insert_ne by done. tauto.
Qed.

(** One call of the service, seen from one stored record. *)
Lemma run_call_isUsed c (s : OTPCollection) j d :
  s !! j = Some d ->
  exists d', run_call' c s !! j = Some d' /\
    (d' = d \/
     (truthy (d !! "isUsed") = false /\ d' = <["isUsed" := VBool true]> d /\
      exists p, c = CallUse p /\ is_ok (useOTP verifyPassword p s).1 = true)).
Proof.
  intros Hj. destruct c as [rnd env userId otpType multiUse | p | p]; simpl.
  - rewrite createOTP_refused. simpl. exists d. tauto.
  - rewrite verifyOTP_writes_nothing. exists d. tauto.
  - destruct (useOTP_sets_isUsed p s j d Hj) as (d' & ? & [? | (? & ? & ?)]);
      exists d'; [tauto |]. split; [done |]. right. split_and!; eauto.
Qed.

(** C9.  The invariant holds but for one part: [isUsed] is set by every
    [useOTP] that returns, also on a record stored with [multiUse],
    which the loaded document does not show, as the schema declares no
    such path.  The rest holds, of the records whose paths are stored
    as the model writes them.  [isUsed] starts out false: the schema
    default fills it in when the object given to [create] has none.
    Neither [verifyOTP] nor [createOTP] changes any record.  A single
    call of the service changes a record only by taking its [isUsed]
    from false to [true], and then the call is a [useOTP] that returned.
    Along any sequence of calls a record that is used stays used. *)
Theorem isUsed_is_set_by_every_useOTP :
  (forall env (obj : doc) (s s' : OTPCollection) r,
     OTP_create OTP_EXPIRATION env obj s = (Ok r, s') ->
     obj !! "isUsed" = None -> r !! "isUsed" = Some (VBool false)) /\
  (forall p (s : OTPCollection) j d,
     s !! j = Some d -> OTP_wellformed d = true ->
     (verifyOTP verifyPassword p s).2 !! j = Some d) /\
  (forall rnd env userId ty multiUse (s : OTPCollection),
     (createOTP OTP_EXPIRATION encryptPassword rnd env userId ty multiUse s).2
     = s) /\
  (forall c (s : OTPCollection) j d,
     s !! j = Some d -> OTP_wellformed d = true ->
     exists d', run_call' c s !! j = Some d' /\ OTP_wellformed d' = true /\
       (d' = d \/
        (truthy (d !! "isUsed") = false /\ d' = <["isUsed" := VBool true]> d /\
         exists p, c = CallUse p /\
                   is_ok (useOTP verifyPassword p s).1 = true))) /\
  (forall p (s s' : OTPCollection) i r r',
     OTP_findOne (otp_filter p) s = Some (i, r) ->
     OTP_wellformed r = true ->
     useOTP verifyPassword p s = (Ok r', s') ->
     truthy (r !! "isUsed") = false /\
     s' !! i = Some (<["isUsed" := VBool true]> r)) /\
  (forall cs (s : OTPCollection) j d,
     s !! j = Some d -> OTP_wellformed d = true ->
     exists d', run_calls' cs s !! j = Some d' /\ OTP_wellformed d' = true /\
       (truthy (d !! "isUsed") = true -> truthy (d' !! "isUsed") = true)).
Proof.
  assert (Hstep : forall c (s : OTPCollection) j d,
     s !! j = Some d -> OTP_wellformed d = true ->
     exists d', run_call' c s !! j = Some d' /\ OTP_wellformed d' = true /\
       (d' = d \/
        (truthy (d !! "isUsed") = false /\ d' = <["isUsed" := VBool true]> d /\
         exists p, c = CallUse p /\
                   is_ok (useOTP verifyPassword p s).1 = true))).
  { intros c s j d Hj Hwf.
    destruct (run_call_isUsed c s j d Hj) as (d' & H' & Hd').
    exists d'. split_and!; [done | | done].
    destruct Hd' as [-> | (_ & -> & _)]; [done |].
    by apply OTP_wellformed_insert_isUsed. }
  split_and!.
  - intros env obj s s' r Hc Hnone.
    apply OTP_create_Ok in Hc as [-> _].
    by rewrite OTP_defaults_isUsed, OTP_cast_lookup, Hnone.
  - intros p s j d Hj _. by rewrite verifyOTP_writes_nothing.
  - intros. by rewrite createOTP_refused.
  - exact Hstep.
  - intros p s s' i r r' Hfind _ Huse.
    pose proof (findOne_Some _ _ _ _ Hfind) as [Hi _].
    rewrite (useOTP_found _ _ _ _ _ Hfind) in Huse.
    destruct (truthy (r !! "isUsed")); [discriminate |].
    destruct (supplied_and_verified _ _ _); [| discriminate].
    injection Huse as <- <-. split; [done |].
    apply list_lookup_insert_eq. by eapply lookup_lt_Some.
  - induction cs as [| c cs IH]; intros s j d Hj Hwf.
    + exists d. by split_and!.
    + destruct (Hstep c s j d Hj Hwf) as (d1 & H1 & Hwf1 & Hd1).
      destruct (IH _ _ _ H1 Hwf1) as (d' & H' & Hwf' & Hkeep).
      exists d'. split_and!; [exact H' | exact Hwf' |]. intros Hused. apply Hkeep.
      destruct Hd1 as [-> | (Hunused & _)]; [done | congruence].
Qed.

End UsedFlag.

Lemma isUsed_is_set_by_every_useOTP_witness :
  Fixture.otp_record true 900000 !! "multiUse" = Some (VBool true) /\
  (OTPService.useOTP Fixture.verifyPassword Fixture.otp_params
     Fixture.live_store).2 !! 1%nat
  = Some (<["isUsed" := VBool true]> (Fixture.otp_record true 900000)).
Proof.
  split; [reflexivity |].
  assert (Huse : OTPService.useOTP Fixture.verifyPassword Fixture.otp_params
                   Fixture.live_store
                 = (Ok (<["isUsed" := VBool true]>
                          (OTP_hydrate (Fixture.otp_record true 900000))),
                    <[1%nat := <["isUsed" := VBool true]>
                                 (Fixture.otp_record true 900000)]>
                      Fixture.live_store))
    by (vm_compute; reflexivity).
  rewrite Huse.
  exact (proj2 (proj1 (proj2 (proj2 (proj2 (proj2
    (isUsed_is_set_by_every_useOTP 600 Fixture.encryptPassword
       Fixture.verifyPassword)))))
    Fixture.otp_params Fixture.live_store _ 1%nat
    (Fixture.otp_record true 900000) _ eq_refl eq_refl Huse)).
Defined.

(** ** The cross-user guard (C7) *)

Section CrossUser.
Import AuthService AuthController.
Variable Users : Type.
Variable getUser : Users -> option string -> doc -> outcome error (option doc).
Variable save : doc -> M Users unit.
Variable updateUser : option val -> doc -> M Users doc.
Variable StringToNumber : string -> option Z.
Variable DateToString : Z -> string.

(** Two values that hold different identifiers are [!=]: as objects
    they are different instances, as an object and a string or as two
    strings they differ in text. *)
Lemma loose_neq_of_id_text a b s t :
  id_text a = Some s -> id_text b = Some t -> s <> t ->
  loose_neq StringToNumber DateToString a b = true.
Proof.
  intros Ha Hb Hne. unfold loose_neq, loose_eq.
  destruct a as [[] |], b as [[] |]; simpl in *; try discriminate;
    injection Ha as ->; injection Hb as ->;
    by rewrite bool_decide_eq_false_2 by congruence.
Qed.

(** C7.  When the request carries an OTP record whose [userId] holds
    another identifier than the [_id] of the account the email resolves
    to, [verifyAccount] and [resetPassword] both fail with Unauthorized,
    and the users store is the one they were given: neither [save] nor
    [updateUser] has run. *)
Theorem cross_user_otp_is_rejected
    (users : Users) (otpRecord body user : doc) s t :
  getUser users None (set_opt "email" (body !! "email") ∅) = Ok (Some user) ->
  id_text (otpRecord !! "userId") = Some s ->
  id_text (user !! "_id") = Some t ->
  s <> t ->
  verifyAccount Users getUser save StringToNumber DateToString
    (Some otpRecord) body users
  = (Throw (UnauthorizedException
       "You're not permitted to carry this out. Request a new otp"), users) /\
  resetPassword Users getUser updateUser StringToNumber DateToString
    (Some otpRecord) body users
  = (Throw (UnauthorizedException
       "You're not permitted to carry this out. Request a new otp"), users).
Proof.
  intros Hu Hs Ht Hne.
  pose proof (loose_neq_of_id_text _ _ _ _ Hs Ht Hne) as Hneq.
  unfold verifyAccount, resetPassword, handler, bind, getUser_by_email,
    lift, throw, prop.
  by rewrite Hu, Hneq.
Qed.

End CrossUser.

Lemma cross_user_otp_is_rejected_witness :
  AuthController.verifyAccount (list doc) Fixture.getUser Fixture.save
    Fixture.StringToNumber Fixture.DateToString
    (Some Fixture.bob_record) Fixture.alice_body [Fixture.alice]
  = (Throw (UnauthorizedException
       "You're not permitted to carry this out. Request a new otp"),
     [Fixture.alice]) /\
  AuthController.resetPassword (list doc) Fixture.getUser Fixture.updateUser
    Fixture.StringToNumber Fixture.DateToString
    (Some Fixture.bob_record) Fixture.alice_body [Fixture.alice]
  = (Throw (UnauthorizedException
       "You're not permitted to carry this out. Request a new otp"),
     [Fixture.alice]).
Proof.
  assert (Hne : Fixture.bob_hex <> Fixture.user_hex) by discriminate.
  exact (cross_user_otp_is_rejected (list doc) Fixture.getUser Fixture.save
    Fixture.updateUser Fixture.StringToNumber Fixture.DateToString
    [Fixture.alice] Fixture.bob_record Fixture.alice_body Fixture.alice
    Fixture.bob_hex Fixture.user_hex eq_refl eq_refl eq_refl Hne).
Defined.

(** ** Logout (C10) *)

Section Logout.
Import AuthService AuthController.

(** The other half of the order: when the access token goes in and the
    refresh token is refused, the access entry stays. *)
Lemma logout_keeps_access_entry access_token refresh_token (db : AuthDb) :
  access_token <> "" -> access_token ∉ blacklistAccessModel db ->
  refresh_token <> "" -> refresh_token ∈ blacklistRefreshModel db ->
  logout access_token refresh_token db
  = (Throw (ConflictException "Token already blacklisted"),
     {| blacklistAccessModel := (blacklistAccessModel db ++ [access_token])%list;
        blacklistRefreshModel := blacklistRefreshModel db |}).
Proof.
  intros Ha Hnew Hr Hin. unfold logout, handler, bind.
  rewrite blacklistToken_access_new by done.
  by rewrite blacklistToken_refresh_again.
Qed.

(** C10.  [logout] writes the access blacklist first.  When that
    insertion fails, the call ends there with an HTTP error (a Conflict
    "Token already blacklisted" when the token is a non-empty string,
    that is, when it was blacklisted already); both blacklists are as
    before, so a refresh token that was not blacklisted is still not. *)
Theorem logout_stops_at_failed_access_blacklisting
    access_token refresh_token (db : AuthDb) :
  is_ok (blacklistToken access_token "access" db).1 = false ->
  (exists x, logout access_token refresh_token db = (Throw x, db)) /\
  (access_token <> "" ->
   logout access_token refresh_token db
   = (Throw (ConflictException "Token already blacklisted"), db)) /\
  (isTokenBlacklisted refresh_token "refresh" db = false ->
   isTokenBlacklisted refresh_token "refresh"
     (logout access_token refresh_token db).2 = false).
Proof.
  intros Hfail.
  destruct (blacklistToken access_token "access" db) as [[[] | e] db'] eqn:Hbl;
    [discriminate |].
  pose proof (blacklistToken_Throw _ _ _ _ _ Hbl) as ->.
  assert (Hout : forall h, exists x,
            handler (blacklistToken access_token "access" ;;;
                     blacklistToken refresh_token "refresh" ;;;
                     ret "Successfully logged out")%js h db = (Throw x, db)).
  { intros h. unfold handler, bind. rewrite Hbl. eauto. }
  split_and!.
  - apply Hout.
  - intros Hne. unfold logout, handler, bind.
    destruct (decide (access_token ∈ blacklistAccessModel db)) as [Hin | Hnew].
    + by rewrite blacklistToken_access_again.
    + rewrite blacklistToken_access_new in Hbl by done. discriminate.
  - intros Hfree. unfold logout. destruct (Hout (fun error =>
       match error with
       | ValidationError m => BadRequestException m
       | IntegrityError m => ConflictException m
       | _ => BadRequestException (error_message error)
       end)) as [x ->]. done.
Qed.

End Logout.

Lemma logout_stops_at_failed_access_blacklisting_witness :
  AuthController.logout "access.token" "refresh.token" Fixture.db1
  = (Throw (ConflictException "Token already blacklisted"), Fixture.db1) /\
  AuthService.isTokenBlacklisted "refresh.token" "refresh"
    (AuthController.logout "access.token" "refresh.token" Fixture.db1).2 = false.
Proof.
  assert (Hne : "access.token" <> "") by discriminate.
  pose proof (logout_stops_at_failed_access_blacklisting
                "access.token" "refresh.token" Fixture.db1 eq_refl)
    as (_ & Hconflict & Hfree).
  exact (conj (Hconflict Hne) (Hfree eq_refl)).
Defined.

(** * Further properties of the token service *)

Section BlacklistWrites.
Import AuthService.

(** The only way [blacklistToken] returns. *)
Lemma blacklistToken_Ok_inv token model (db db' : AuthDb) :
  blacklistToken token model db = (Ok tt, db') ->
  token <> "" /\
  ((model = "access" /\ (token ∉ blacklistAccessModel db) /\
    blacklistAccessModel db' = (blacklistAccessModel db ++ [token])%list /\
    blacklistRefreshModel db' = blacklistRefreshModel db) \/
   (model = "refresh" /\ (token ∉ blacklistRefreshModel db) /\
    blacklistAccessModel db' = blacklistAccessModel db /\
    blacklistRefreshModel db' = (blacklistRefreshModel db ++ [token])%list)).
Proof.
  unfold blacklistToken, try_catch, on_access, on_refresh, Blacklist_create, throw.
  destruct db as [a r]. simpl.
  repeat case_bool_decide; simpl; repeat case_bool_decide;
    intros [= <-]; subst; simpl; split; try done; first [by left | by right].
Qed.

(** How [blacklistToken] throws: nothing is written, and the error names
    the cause. *)
Lemma blacklistToken_Throw_inv token model (db db' : AuthDb) e :
  blacklistToken token model db = (Throw e, db') ->
  db' = db /\
  ((model <> "access" /\ model <> "refresh" /\
    e = ValidationError "Invalid model") \/
   ((model = "access" \/ model = "refresh") /\ token = "" /\
    e = MongooseValidationError "Path `token` is required.") \/
   ((model = "access" \/ model = "refresh") /\ token <> "" /\
    isTokenBlacklisted token model db = true /\
    e = IntegrityError "Token already blacklisted")).
Proof.
  intros H. split; [by eapply blacklistToken_Throw |].
  revert H.
  unfold blacklistToken, try_catch, on_access, on_refresh, Blacklist_create, throw.
  destruct (decide (model = "access")) as [-> | Ha].
  - rewrite isTokenBlacklisted_access. simpl.
    repeat case_bool_decide; simpl; intros [= <- _]; try done; naive_solver.
  - rewrite (bool_decide_eq_false_2 (model = "access")) by done.
    destruct (decide (model = "refresh")) as [-> | Hr].
    + rewrite isTokenBlacklisted_refresh. simpl.
      repeat case_bool_decide; simpl; intros [= <- _]; try done; naive_solver.
    + rewrite (bool_decide_eq_false_2 (model = "refresh")) by done.
      simpl. intros [= <- _]. by left.
Qed.

Lemma blacklistToken_then_isTokenBlacklisted_aux token model (db db' : AuthDb) :
  blacklistToken token model db = (Ok tt, db') ->
  isTokenBlacklisted token model db = false /\
  isTokenBlacklisted token model db' = true /\
  (forall t m, t <> token \/ m <> model ->
     isTokenBlacklisted t m db' = isTokenBlacklisted t m db).
Proof.
  intros H. apply blacklistToken_Ok_inv in H
    as (Hne & [(-> & Hnew & Ha & Hr) | (-> & Hnew & Ha & Hr)]).
  - rewrite !isTokenBlacklisted_access. rewrite Ha. split_and!.
    + by apply bool_decide_eq_false_2.
    + apply bool_decide_eq_true_2, elem_of_app. right.
      by apply list_elem_of_singleton.
    + intros t m Hdiff. unfold isTokenBlacklisted, Blacklist_findOne.
      rewrite Ha, Hr.
      destruct (decide (m = "access")) as [-> | Hm].
      * assert (t <> token) by (destruct Hdiff; done).
        simpl. rewrite (bool_decide_ext (t ∈ (blacklistAccessModel db ++ [token])%list)
                          (t ∈ blacklistAccessModel db)); [done |].
        rewrite elem_of_app, list_elem_of_singleton. tauto.
      * by rewrite (bool_decide_eq_false_2 (m = "access")).
  - rewrite !isTokenBlacklisted_refresh. rewrite Hr. split_and!.
    + by apply bool_decide_eq_false_2.
    + apply bool_decide_eq_true_2, elem_of_app. right.
      by apply list_elem_of_singleton.
    + intros t m Hdiff. unfold isTokenBlacklisted, Blacklist_findOne.
      rewrite Ha, Hr.
      destruct (decide (m = "access")) as [-> | Hm]; [done |].
      rewrite (bool_decide_eq_false_2 (m = "access")) by done.
      destruct (decide (m = "refresh")) as [-> | Hm'].
      * assert (t <> token) by (destruct Hdiff; done).
        simpl. rewrite (bool_decide_ext (t ∈ (blacklistRefreshModel db ++ [token])%list)
                          (t ∈ blacklistRefreshModel db)); [done |].
        rewrite elem_of_app, list_elem_of_singleton. tauto.
      * by rewrite (bool_decide_eq_false_2 (m = "refresh")).
Qed.

(** X1.  A [blacklistToken] that returns makes [isTokenBlacklisted]
    answer [true] for that token in that class, where it answered
    [false] before, and changes the answer for no other token or class. *)
Theorem blacklistToken_then_isTokenBlacklisted token model (db db' : AuthDb) :
  blacklistToken token model db = (Ok tt, db') ->
  isTokenBlacklisted token model db = false /\
  isTokenBlacklisted token model db' = true /\
  (forall t m, t <> token \/ m <> model ->
     isTokenBlacklisted t m db' = isTokenBlacklisted t m db).
Proof. exact (blacklistToken_then_isTokenBlacklisted_aux token model db db'). Qed.

Lemma blacklistToken_outcomes_aux token model (db : AuthDb) :
  (is_ok (blacklistToken token model db).1 = true <->
   (model = "access" \/ model = "refresh") /\ token <> "" /\
   isTokenBlacklisted token model db = false) /\
  (forall e, (blacklistToken token model db).1 = Throw e ->
     (blacklistToken token model db).2 = db /\
     ((model <> "access" /\ model <> "refresh" /\
       e = ValidationError "Invalid model") \/
      ((model = "access" \/ model = "refresh") /\ token = "" /\
       e = MongooseValidationError "Path `token` is required.") \/
      ((model = "access" \/ model = "refresh") /\ token <> "" /\
       isTokenBlacklisted token model db = true /\
       e = IntegrityError "Token already blacklisted"))).
Proof.
  destruct (blacklistToken token model db) as [[[] | e] db'] eqn:H; simpl.
  - split; [| done]. split; [intros _ | done].
    pose proof (blacklistToken_then_isTokenBlacklisted_aux _ _ _ _ H) as (Hfree & _).
    apply blacklistToken_Ok_inv in H as (Hne & [(-> & _) | (-> & _)]); auto.
  - pose proof (blacklistToken_Throw_inv _ _ _ _ _ H) as (-> & Hcause).
    split; [| by intros e' [= <-]].
    split; [done |]. intros (Hm & Hne & Hfree).
    destruct Hcause as [(? & ? & _) | [(_ & ? & _) | (_ & _ & ? & _)]];
      [destruct Hm | |]; congruence.
Qed.

(** X2.  [blacklistToken] returns exactly when the class is ['access']
    or ['refresh'], the token is not the empty string and it is not in
    that blacklist yet.  Otherwise it throws, writes nothing, and the
    error tells the three causes apart: a ValidationError for another
    class name, the schema's validation error, passed on as it is, for
    the empty token, an IntegrityError for a token already there. *)
Theorem blacklistToken_outcomes token model (db : AuthDb) :
  (is_ok (blacklistToken token model db).1 = true <->
   (model = "access" \/ model = "refresh") /\ token <> "" /\
   isTokenBlacklisted token model db = false) /\
  (forall e, (blacklistToken token model db).1 = Throw e ->
     (blacklistToken token model db).2 = db /\
     ((model <> "access" /\ model <> "refresh" /\
       e = ValidationError "Invalid model") \/
      ((model = "access" \/ model = "refresh") /\ token = "" /\
       e = MongooseValidationError "Path `token` is required.") \/
      ((model = "access" \/ model = "refresh") /\ token <> "" /\
       isTokenBlacklisted token model db = true /\
       e = IntegrityError "Token already blacklisted"))).
Proof. exact (blacklistToken_outcomes_aux token model db). Qed.

(** X5.  After [clearBlacklist] no token is blacklisted in either
    class, and every non-empty token can be blacklisted anew. *)
Theorem clearBlacklist_forgets_everything (db : AuthDb) :
  (clearBlacklist db).1 = Ok tt /\
  (forall t m, isTokenBlacklisted t m (clearBlacklist db).2 = false) /\
  (forall t m, t <> "" -> m = "access" \/ m = "refresh" ->
     is_ok (blacklistToken t m (clearBlacklist db).2).1 = true).
Proof.
  assert (Hclear : forall t m, isTokenBlacklisted t m (clearBlacklist db).2 = false).
  { intros t m. unfold isTokenBlacklisted, Blacklist_findOne. simpl.
    repeat case_bool_decide; simpl; try done;
      match goal with H : _ ∈ [] |- _ => by apply not_elem_of_nil in H end. }
  split_and!; [done | exact Hclear |].
  intros t m Hne Hm. by apply blacklistToken_outcomes_aux.
Qed.

End BlacklistWrites.

Section RefreshWrites.
Import AuthService AuthController Traces.
Variables JWT_VERIFYING_KEY JWT_ALGORITHM JWT_SIGNING_KEY : string.
Variables JWT_REFRESH_TOKEN_EXPIRATION JWT_ACCESS_TOKEN_EXPIRATION : string.
Variable signAsync : doc -> JwtSignOptions -> outcome error string.
Variable verify : string -> JwtVerifyOptions -> Z -> outcome error doc.
Variable Users : Type.
Variable getUser : Users -> option string -> doc -> outcome error (option doc).
Variable toISOString : Z -> string.

Local Abbreviation refreshTokens_try' :=
  (refreshTokens_try JWT_VERIFYING_KEY JWT_ALGORITHM JWT_SIGNING_KEY
     JWT_REFRESH_TOKEN_EXPIRATION JWT_ACCESS_TOKEN_EXPIRATION
     signAsync verify Users getUser toISOString).
Local Abbreviation refreshTokens' :=
  (refreshTokens JWT_VERIFYING_KEY JWT_ALGORITHM JWT_SIGNING_KEY
     JWT_REFRESH_TOKEN_EXPIRATION JWT_ACCESS_TOKEN_EXPIRATION
     signAsync verify Users getUser toISOString).
Local Abbreviation run_auth_call' :=
  (run_auth_call JWT_VERIFYING_KEY JWT_ALGORITHM JWT_SIGNING_KEY
     JWT_REFRESH_TOKEN_EXPIRATION JWT_ACCESS_TOKEN_EXPIRATION
     signAsync verify Users getUser toISOString).
Local Abbreviation run_auth_calls' :=
  (run_auth_calls JWT_VERIFYING_KEY JWT_ALGORITHM JWT_SIGNING_KEY
     JWT_REFRESH_TOKEN_EXPIRATION JWT_ACCESS_TOKEN_EXPIRATION
     signAsync verify Users getUser toISOString).

(** The [try] block writes at its last step only. *)
Lemma refreshTokens_try_writes users clock token (db db' : AuthDb) r :
  refreshTokens_try' users clock token db = (r, db') ->
  (is_ok r = false -> db' = db) /\
  (is_ok r = true ->
   token <> "" /\ (token ∉ blacklistRefreshModel db) /\
   blacklistAccessModel db' = blacklistAccessModel db /\
   blacklistRefreshModel db' = (blacklistRefreshModel db ++ [token])%list).
Proof.
  unfold refreshTokens_try, bind, gets, lift, throw, ret.
  destruct (isTokenBlacklisted token "refresh" db);
    [by intros [= <- <-] |].
  destruct (verify _ _ _) as [decoded | e]; [| by intros [= <- <-]].
  case_bool_decide; [by intros [= <- <-] |].
  destruct (createFromHexString _) as [id' | e]; [| by intros [= <- <-]].
  destruct (getUser _ _ _) as [[user |] | e]; try by intros [= <- <-].
  destruct (getTokens _ _ _ _ _ _ _ _) as [tokens | e]; [| by intros [= <- <-]].
  destruct (blacklistToken token "refresh" db) as [[[] | e] db1] eqn:Hbl.
  - intros [= <- <-]. split; [done |]. intros _.
    apply blacklistToken_Ok_inv in Hbl
      as (Hne & [(? & _) | (_ & Hnew & Ha & Hr)]); [done |]. done.
  - intros [= <- <-]. split; [| done]. intros _.
    by eapply blacklistToken_Throw.
Qed.

Lemma refreshTokens_writes_aux users clock token (db : AuthDb) :
  let result := refreshTokens' users clock token db in
  blacklistAccessModel result.2 = blacklistAccessModel db /\
  (is_ok result.1 = false -> result.2 = db) /\
  (is_ok result.1 = true ->
   token <> "" /\ (token ∉ blacklistRefreshModel db) /\
   blacklistRefreshModel result.2 = (blacklistRefreshModel db ++ [token])%list) /\
  (token = "" -> result.1 = Throw (UnauthorizedError "Invalid token")).
Proof.
  intros result. unfold result. clear result.
  rewrite (refreshTokens_catch JWT_VERIFYING_KEY JWT_ALGORITHM JWT_SIGNING_KEY
             JWT_REFRESH_TOKEN_EXPIRATION JWT_ACCESS_TOKEN_EXPIRATION
             signAsync verify Users getUser toISOString).
  destruct (refreshTokens_try' users clock token db) as [r db'] eqn:Htry.
  apply refreshTokens_try_writes in Htry as [Hfail Hok].
  destruct r as [tokens | e]; simpl in *.
  - destruct (Hok eq_refl) as (Hne & Hnew & Ha & Hr).
    split_and!; try done.
  - rewrite (Hfail eq_refl). split_and!; done.
Qed.

(** X6.  A [refreshTokens] that throws writes nothing.  One that
    returns has appended the presented token, which is then neither
    empty nor previously blacklisted, to the refresh blacklist and has
    done nothing else; the access blacklist is never written.  In
    particular the empty string is never accepted as a refresh token,
    whatever the JWT library makes of it. *)
Theorem refreshTokens_writes users clock token (db : AuthDb) :
  let result := refreshTokens' users clock token db in
  blacklistAccessModel result.2 = blacklistAccessModel db /\
  (is_ok result.1 = false -> result.2 = db) /\
  (is_ok result.1 = true ->
   token <> "" /\ (token ∉ blacklistRefreshModel db) /\
   blacklistRefreshModel result.2 = (blacklistRefreshModel db ++ [token])%list) /\
  (token = "" -> result.1 = Throw (UnauthorizedError "Invalid token")).
Proof. exact (refreshTokens_writes_aux users clock token db). Qed.

(** One call keeps both blacklists free of duplicates. *)
Lemma run_auth_call_unique users c (db : AuthDb) :
  blacklists_unique db -> blacklists_unique (run_auth_call' users c db).
Proof.
  assert (Hbl : forall token model db0,
            blacklists_unique db0 ->
            blacklists_unique (blacklistToken token model db0).2).
  { intros token model db0 [Ha Hr].
    destruct (blacklistToken token model db0) as [[[] | e] db1] eqn:H; simpl.
    - apply blacklistToken_Ok_inv in H
        as (_ & [(_ & Hnew & Ha' & Hr') | (_ & Hnew & Ha' & Hr')]);
        split; rewrite ?Ha', ?Hr'; try done;
        apply NoDup_app; split_and!; try done;
        try apply NoDup_singleton;
        intros x Hx ->%list_elem_of_singleton; done.
    - apply blacklistToken_Throw in H as ->. by split. }
  intros Hu. destruct c as [token model | clock token | a r |]; simpl.
  - by apply Hbl.
  - pose proof (refreshTokens_writes_aux users clock token db) as (Ha & Hfail & Hok & _).
    destruct (is_ok (refreshTokens' users clock token db).1) eqn:E.
    + destruct (Hok eq_refl) as (_ & Hnew & Hr). destruct Hu as [Hua Hur].
      split; [by rewrite Ha |]. rewrite Hr.
      apply NoDup_app; split_and!; try done; [| apply NoDup_singleton].
      intros x Hx ->%list_elem_of_singleton. done.
    + by rewrite (Hfail eq_refl).
  - unfold logout, handler, bind.
    destruct (blacklistToken a "access" db) as [[[] | e] db1] eqn:H1; simpl.
    + pose proof (Hbl a "access" db Hu) as Hu1. rewrite H1 in Hu1. simpl in Hu1.
      pose proof (Hbl r "refresh" db1 Hu1) as Hu2.
      by destruct (blacklistToken r "refresh" db1) as [[[] | e] db2].
    + pose proof (Hbl a "access" db Hu) as Hu1. by rewrite H1 in Hu1.
  - split; apply NoDup_nil_2.
Qed.

(** X3.  If every token occurs at most once in each blacklist, this is
    still so after any sequence of [blacklistToken], [refreshTokens],
    [logout] and [clearBlacklist] calls, whatever each call answers. *)
Theorem blacklists_stay_unique users cs (db : AuthDb) :
  blacklists_unique db -> blacklists_unique (run_auth_calls' users cs db).
Proof.
  revert db. induction cs as [| c cs IH]; intros db Hu; simpl; [done |].
  apply IH. by apply run_auth_call_unique.
Qed.

(** One call other than [clearBlacklist] only adds to the blacklists. *)
Lemma run_auth_call_grows users c (db : AuthDb) t m :
  is_clear c = false ->
  isTokenBlacklisted t m db = true ->
  isTokenBlacklisted t m (run_auth_call' users c db) = true.
Proof.
  assert (Hbl : forall token model db0,
            isTokenBlacklisted t m db0 = true ->
            isTokenBlacklisted t m (blacklistToken token model db0).2 = true).
  { intros token model db0 Hin.
    destruct (blacklistToken token model db0) as [[[] | e] db1] eqn:H; simpl.
    - pose proof (blacklistToken_then_isTokenBlacklisted_aux _ _ _ _ H)
        as (Hfree & Hnow & Hother).
      destruct (decide (t = token)) as [-> | Ht];
        [destruct (decide (m = model)) as [-> | Hm] |];
        [done | rewrite Hother by auto; done | rewrite Hother by auto; done].
    - by apply blacklistToken_Throw in H as ->. }
  intros Hc Hin. destruct c as [token model | clock token | a r |];
    simpl in *; [| | | done].
  - by apply Hbl.
  - pose proof (refreshTokens_writes_aux users clock token db) as (Ha & Hfail & Hok & _).
    destruct (is_ok (refreshTokens' users clock token db).1) eqn:E.
    + destruct (Hok eq_refl) as (_ & _ & Hr).
      revert Hin. unfold isTokenBlacklisted, Blacklist_findOne.
      rewrite Ha, Hr. repeat case_bool_decide; try done.
      exfalso. match goal with H : _ ∉ (_ ++ _)%list |- _ => apply H end.
      apply elem_of_app. by left.
    + by rewrite (Hfail eq_refl).
  - unfold logout, handler, bind.
    destruct (blacklistToken a "access" db) as [[[] | e] db1] eqn:H1; simpl.
    + pose proof (Hbl a "access" db Hin) as Hin1. rewrite H1 in Hin1. simpl in Hin1.
      pose proof (Hbl r "refresh" db1 Hin1) as Hin2.
      by destruct (blacklistToken r "refresh" db1) as [[[] | e] db2].
    + pose proof (Hbl a "access" db Hin) as Hin1. by rewrite H1 in Hin1.
Qed.

(** X4.  Revocation is permanent: a token that [isTokenBlacklisted]
    reports in a class is still reported after any sequence of
    [blacklistToken], [refreshTokens] and [logout] calls; only
    [clearBlacklist] takes entries away. *)
Theorem blacklisted_stays_blacklisted users cs (db : AuthDb) t m :
  forallb (fun c => negb (is_clear c)) cs = true ->
  isTokenBlacklisted t m db = true ->
  isTokenBlacklisted t m (run_auth_calls' users cs db) = true.
Proof.
  revert db. induction cs as [| c cs IH]; intros db Hcs Hin; simpl in *; [done |].
  apply andb_prop in Hcs as [Hc Hcs]. apply negb_true_iff in Hc.
  apply IH; [done |]. by apply run_auth_call_grows.
Qed.

End RefreshWrites.

(** * Further properties of logout *)

Section LogoutOutcomes.
Import AuthService AuthController.
Variables JWT_VERIFYING_KEY JWT_ALGORITHM JWT_SIGNING_KEY : string.
Variables JWT_REFRESH_TOKEN_EXPIRATION JWT_ACCESS_TOKEN_EXPIRATION : string.
Variable signAsync : doc -> JwtSignOptions -> outcome error string.
Variable verify : string -> JwtVerifyOptions -> Z -> outcome error doc.
Variable Users : Type.
Variable getUser : Users -> option string -> doc -> outcome error (option doc).
Variable toISOString : Z -> string.

Lemma logout_succeeds_iff_aux access_token refresh_token (db : AuthDb) :
  (is_ok (logout access_token refresh_token db).1 = true <->
   access_token <> "" /\ refresh_token <> "" /\
   isTokenBlacklisted access_token "access" db = false /\
   isTokenBlacklisted refresh_token "refresh" db = false) /\
  (is_ok (logout access_token refresh_token db).1 = true ->
   logout access_token refresh_token db
   = (Ok "Successfully logged out",
      {| blacklistAccessModel := (blacklistAccessModel db ++ [access_token])%list;
         blacklistRefreshModel :=
           (blacklistRefreshModel db ++ [refresh_token])%list |})).
Proof.
  rewrite isTokenBlacklisted_access, isTokenBlacklisted_refresh.
  unfold logout, handler, bind, ret.
  destruct (blacklistToken access_token "access" db) as [[[] | e] db1] eqn:H1.
  - pose proof (blacklistToken_Ok_inv _ _ _ _ H1)
      as (Hne & [(_ & Hnew & Ha & Hr) | (? & _)]); [| done].
    destruct (blacklistToken refresh_token "refresh" db1) as [[[] | e] db2] eqn:H2.
    + pose proof (blacklistToken_Ok_inv _ _ _ _ H2)
        as (Hne2 & [(? & _) | (_ & Hnew2 & Ha2 & Hr2)]); [done |].
      simpl. split.
      * split; [intros _ | done]. rewrite Hr in Hnew2.
        split_and!; try done; by apply bool_decide_eq_false_2.
      * intros _. f_equal. destruct db2 as [a2 r2]. simpl in *. congruence.
    + simpl. split; [| done]. split; [done |].
      intros (_ & Hne2 & _ & Hfree%bool_decide_eq_false).
      rewrite <- Hr in Hfree.
      rewrite blacklistToken_refresh_new in H2 by done. discriminate.
  - simpl. split; [| done]. split; [done |].
    intros (Hne & _ & Hfree%bool_decide_eq_false & _).
    rewrite blacklistToken_access_new in H1 by done. discriminate.
Qed.

(** X7.  [logout] returns exactly when both tokens are non-empty, the
    access token is not in the access blacklist and the refresh token is
    not in the refresh blacklist; both are then blacklisted and nothing
    else is written. *)
Theorem logout_succeeds_iff access_token refresh_token (db : AuthDb) :
  (is_ok (logout access_token refresh_token db).1 = true <->
   access_token <> "" /\ refresh_token <> "" /\
   isTokenBlacklisted access_token "access" db = false /\
   isTokenBlacklisted refresh_token "refresh" db = false) /\
  (is_ok (logout access_token refresh_token db).1 = true ->
   logout access_token refresh_token db
   = (Ok "Successfully logged out",
      {| blacklistAccessModel := (blacklistAccessModel db ++ [access_token])%list;
         blacklistRefreshModel :=
           (blacklistRefreshModel db ++ [refresh_token])%list |})).
Proof. exact (logout_succeeds_iff_aux access_token refresh_token db). Qed.

(** X8.  After a [logout] that returned, [refreshTokens] with the
    logged-out refresh token fails with Unauthorized and writes nothing,
    whatever the JWT library and the users service answer, and a second
    [logout] with the same access token is a Conflict that leaves any
    refresh token it brings out of the blacklist. *)
Theorem logout_revokes_refresh_token
    users clock access_token refresh_token other_token (db db' : AuthDb) m :
  logout access_token refresh_token db = (Ok m, db') ->
  refreshTokens JWT_VERIFYING_KEY JWT_ALGORITHM JWT_SIGNING_KEY
    JWT_REFRESH_TOKEN_EXPIRATION JWT_ACCESS_TOKEN_EXPIRATION
    signAsync verify Users getUser toISOString users clock refresh_token db'
  = (Throw (UnauthorizedError "Invalid token"), db') /\
  logout access_token other_token db'
  = (Throw (ConflictException "Token already blacklisted"), db').
Proof.
  intros Hout.
  pose proof (logout_succeeds_iff_aux access_token refresh_token db) as [Hiff Hdb].
  assert (Hok : is_ok (logout access_token refresh_token db).1 = true)
    by by rewrite Hout.
  apply Hiff in Hok as (Hne & Hne2 & _ & _).
  rewrite Hdb in Hout by by rewrite Hout. injection Hout as <- <-.
  split.
  - rewrite (refreshTokens_catch JWT_VERIFYING_KEY JWT_ALGORITHM JWT_SIGNING_KEY
               JWT_REFRESH_TOKEN_EXPIRATION JWT_ACCESS_TOKEN_EXPIRATION
               signAsync verify Users getUser toISOString).
    rewrite refreshTokens_try_blacklisted; [done |]. simpl.
    apply elem_of_app. right. by apply list_elem_of_singleton.
  - unfold logout, handler, bind.
    rewrite blacklistToken_access_again; [done | done |]. simpl.
    apply elem_of_app. right. by apply list_elem_of_singleton.
Qed.

End LogoutOutcomes.

(** * Further properties of token issuing and rotation *)

Section Issuing.
Import AuthService AuthController.
Variables JWT_VERIFYING_KEY JWT_ALGORITHM JWT_SIGNING_KEY : string.
Variables JWT_REFRESH_TOKEN_EXPIRATION JWT_ACCESS_TOKEN_EXPIRATION : string.
Variable signAsync : doc -> JwtSignOptions -> outcome error string.
Variable verify : string -> JwtVerifyOptions -> Z -> outcome error doc.
Variable Users : Type.
Variable getUser : Users -> option string -> doc -> outcome error (option doc).
Variable toISOString : Z -> string.

Local Abbreviation options :=
  (refresh_verify_options JWT_VERIFYING_KEY JWT_ALGORITHM
     JWT_REFRESH_TOKEN_EXPIRATION).
Local Abbreviation getTokens' :=
  (getTokens JWT_ALGORITHM JWT_SIGNING_KEY JWT_REFRESH_TOKEN_EXPIRATION
     JWT_ACCESS_TOKEN_EXPIRATION signAsync toISOString).
Local Abbreviation refreshTokens_try' :=
  (refreshTokens_try JWT_VERIFYING_KEY JWT_ALGORITHM JWT_SIGNING_KEY
     JWT_REFRESH_TOKEN_EXPIRATION JWT_ACCESS_TOKEN_EXPIRATION
     signAsync verify Users getUser toISOString).
Local Abbreviation refreshTokens' :=
  (refreshTokens JWT_VERIFYING_KEY JWT_ALGORITHM JWT_SIGNING_KEY
     JWT_REFRESH_TOKEN_EXPIRATION JWT_ACCESS_TOKEN_EXPIRATION
     signAsync verify Users getUser toISOString).

(** What an issued pair was made from. *)
Lemma getTokens_Ok_inv (user : doc) clock t :
  getTokens' user clock = Ok t ->
  exists ref payload,
    user !! "_id" = Some (VOid ref (userId t)) /\
    payload !! "sub" = Some (VStr (userId t)) /\
    payload !! "iat" = Some (VNum (clock / 1000)) /\
    payload !! "lastAuthChange" = user !! "lastAuthChange" /\
    payload !! "type" = None /\
    signAsync (<["type" := VStr "access"]> payload)
      {| secret := JWT_SIGNING_KEY; expiresIn := JWT_ACCESS_TOKEN_EXPIRATION;
         algorithm := JWT_ALGORITHM |} = Ok (accessToken t) /\
    signAsync (<["type" := VStr "refresh"]> payload)
      {| secret := JWT_SIGNING_KEY; expiresIn := JWT_REFRESH_TOKEN_EXPIRATION;
         algorithm := JWT_ALGORITHM |} = Ok (refreshToken t) /\
    access_iat t = toISOString (clock / 1000 * 1000) /\
    refresh_iat t = toISOString (clock / 1000 * 1000) /\
    access_exp t = toISOString ((clock / 1000 + 60 * 60) * 1000) /\
    refresh_exp t = toISOString ((clock / 1000 + 60 * 60 * 24 * 7) * 1000).
Proof.
  unfold getTokens, toHexString.
  destruct (user !! "_id") as [[| | | | ref hex] |] eqn:Hid; try discriminate.
  set (payload := <["sub" := VStr hex]>
                    (set_opt "lastAuthChange" (user !! "lastAuthChange")
                       (<["iat" := VNum (clock / 1000)]> ∅))).
  destruct (signAsync (<["type" := VStr "access"]> payload) _) as [a | e] eqn:Ha;
    [| discriminate].
  destruct (signAsync (<["type" := VStr "refresh"]> payload) _) as [r | e] eqn:Hr;
    [| discriminate].
  intros [= <-]. simpl. exists ref, payload.
  split_and!; try done; unfold payload, set_opt.
  - by rewrite lookup_insert_eq.
  - destruct (user !! "lastAuthChange");
      by rewrite !lookup_insert_ne, ?lookup_insert_eq by done.
  - destruct (user !! "lastAuthChange") eqn:E.
    + by rewrite lookup_insert_ne, lookup_insert_eq by done.
    + by rewrite !lookup_insert_ne, lookup_empty by done.
  - destruct (user !! "lastAuthChange");
      by rewrite !lookup_insert_ne, ?lookup_empty by done.
Qed.

(** X9.  The times a pair announces are fixed by the clock alone: the
    issue time is the clock cut down to the whole second (hence at most
    999 ms before it), the access token is announced to expire one hour
    and the refresh token seven days after that second.  The lifetimes
    configured for the signer play no part in them.  The announced
    [userId] is the hex form of the user's [_id]. *)
Theorem getTokens_announced_times (user : doc) clock t :
  getTokens' user clock = Ok t ->
  exists issued,
    issued <= clock < issued + 1000 /\ issued mod 1000 = 0 /\
    access_iat t = toISOString issued /\
    refresh_iat t = toISOString issued /\
    access_exp t = toISOString (issued + 3600000) /\
    refresh_exp t = toISOString (issued + 604800000) /\
    id_text (user !! "_id") = Some (userId t).
Proof.
  intros H. apply getTokens_Ok_inv in H
    as (ref & payload & Hid & _ & _ & _ & _ & _ & _ & Hai & Hri & Hae & Hre).
  pose proof (Z.div_mod clock 1000 ltac:(lia)) as Hdiv.
  pose proof (Z.mod_pos_bound clock 1000 ltac:(lia)) as Hmod.
  exists (clock / 1000 * 1000). split_and!.
  - lia.
  - lia.
  - apply Z.mod_mul. lia.
  - done.
  - done.
  - rewrite Hae. f_equal. lia.
  - rewrite Hre. f_equal. lia.
  - by rewrite Hid.
Qed.

(** What a returning [try] block has checked. *)
Lemma refreshTokens_try_Ok_inv users clock token (db db' : AuthDb) tokens :
  refreshTokens_try' users clock token db = (Ok tokens, db') ->
  isTokenBlacklisted token "refresh" db = false /\
  exists decoded sub user,
    verify token options clock = Ok decoded /\
    decoded !! "type" = Some (VStr "refresh") /\
    createFromHexString (default (VStr "") (decoded !! "sub")) = Ok sub /\
    getUser users (Some sub) ∅ = Ok (Some user) /\
    getTokens' user clock = Ok tokens.
Proof.
  unfold refreshTokens_try, bind, gets, lift, throw, ret.
  destruct (isTokenBlacklisted token "refresh" db); [discriminate |].
  destruct (verify _ _ _) as [decoded | e]; [| discriminate].
  case_bool_decide as Hty; [discriminate |].
  destruct (createFromHexString _) as [sub | e] eqn:Hsub; [| discriminate].
  destruct (getUser _ _ _) as [[user |] | e] eqn:Hu; try discriminate.
  destruct (getTokens _ _ _ _ _ _ _ _) as [t | e] eqn:Ht; [| discriminate].
  destruct (blacklistToken token "refresh" db) as [[[] | e] db1]; [| discriminate].
  intros [= <- <-]. split; [done |]. exists decoded, sub, user.
  by split_and!.
Qed.

End Issuing.

Section IssuedTokens.
Import AuthService AuthController.
Variables JWT_VERIFYING_KEY JWT_ALGORITHM JWT_SIGNING_KEY : string.
Variables JWT_REFRESH_TOKEN_EXPIRATION JWT_ACCESS_TOKEN_EXPIRATION : string.
Variable signAsync : doc -> JwtSignOptions -> outcome error string.
Variable verify : string -> JwtVerifyOptions -> Z -> outcome error doc.
Variable Users : Type.
Variable getUser : Users -> option string -> doc -> outcome error (option doc).
Variable toISOString : Z -> string.

Local Abbreviation options :=
  (refresh_verify_options JWT_VERIFYING_KEY JWT_ALGORITHM
     JWT_REFRESH_TOKEN_EXPIRATION).
Local Abbreviation getTokens' :=
  (getTokens JWT_ALGORITHM JWT_SIGNING_KEY JWT_REFRESH_TOKEN_EXPIRATION
     JWT_ACCESS_TOKEN_EXPIRATION signAsync toISOString).
Local Abbreviation refreshTokens' :=
  (refreshTokens JWT_VERIFYING_KEY JWT_ALGORITHM JWT_SIGNING_KEY
     JWT_REFRESH_TOKEN_EXPIRATION JWT_ACCESS_TOKEN_EXPIRATION
     signAsync verify Users getUser toISOString).

(** X10.  [refreshTokens] returns a pair only for a token that is not in
    the refresh blacklist, that the JWT library verifies at that clock
    reading, whose [type] is ['refresh'] and whose [sub] is the
    twenty-four digit hex form of an id under which the users service
    finds a user; the pair is the one [getTokens] issues to that user at
    that clock reading. *)
Theorem refreshTokens_returns_only_if users clock token (db db' : AuthDb) tokens :
  refreshTokens' users clock token db = (Ok tokens, db') ->
  isTokenBlacklisted token "refresh" db = false /\
  exists decoded sub user,
    verify token options clock = Ok decoded /\
    decoded !! "type" = Some (VStr "refresh") /\
    createFromHexString (default (VStr "") (decoded !! "sub")) = Ok sub /\
    getUser users (Some sub) ∅ = Ok (Some user) /\
    getTokens' user clock = Ok tokens.
Proof.
  rewrite (refreshTokens_catch JWT_VERIFYING_KEY JWT_ALGORITHM JWT_SIGNING_KEY
             JWT_REFRESH_TOKEN_EXPIRATION JWT_ACCESS_TOKEN_EXPIRATION
             signAsync verify Users getUser toISOString).
  destruct (refreshTokens_try _ _ _ _ _ _ _ _ _ _ users clock token db)
    as [[t | e] db1] eqn:Htry; [| discriminate].
  intros [= <- <-]. by eapply refreshTokens_try_Ok_inv.
Qed.

(** X11.  Let the JWT library decode a token it verifies to the [type]
    it was signed with.  Then the access token of any pair [getTokens]
    issues is never accepted by [refreshTokens]: the call fails with
    Unauthorized and writes nothing, at every clock reading and for
    every state of the blacklists. *)
Theorem issued_access_token_cannot_refresh
    (user : doc) clock t users clock' (db : AuthDb) :
  (forall payload o token c decoded,
     signAsync payload o = Ok token ->
     verify token options c = Ok decoded ->
     decoded !! "type" = payload !! "type") ->
  getTokens' user clock = Ok t ->
  refreshTokens' users clock' (accessToken t) db
  = (Throw (UnauthorizedError "Invalid token"), db).
Proof.
  intros Hlib Hpair.
  apply getTokens_Ok_inv in Hpair
    as (ref & payload & _ & _ & _ & _ & _ & Hsign & _).
  rewrite (refreshTokens_catch JWT_VERIFYING_KEY JWT_ALGORITHM JWT_SIGNING_KEY
             JWT_REFRESH_TOKEN_EXPIRATION JWT_ACCESS_TOKEN_EXPIRATION
             signAsync verify Users getUser toISOString).
  destruct (refreshTokens_try _ _ _ _ _ _ _ _ _ _ users clock' (accessToken t) db)
    as [[t' | e] db1] eqn:Htry.
  - exfalso. apply refreshTokens_try_Ok_inv in Htry
      as (_ & decoded & sub & u & Hv & Hty & _).
    rewrite (Hlib _ _ _ _ _ Hsign Hv) in Hty.
    by rewrite lookup_insert_eq in Hty.
  - apply refreshTokens_try_writes in Htry as [Hfail _].
    by rewrite (Hfail eq_refl).
Qed.

End IssuedTokens.

(** * Further properties of the OTP service *)

Section GeneratedCodes.
Import OTPService.

Lemma pretty_six_digits (n : Z) :
  100000 <= n <= 999999 -> String.length (pretty n) = 6%nat.
Proof.
  intros Hn. destruct n as [| p | p]; try lia.
  unfold pretty, pretty_Z, pretty, pretty_positive, pretty, pretty_N.
  rewrite decide_False by done.
  assert (Hp : (100000 <= N.pos p <= 999999)%N) by lia.
  set (x := N.pos p) in *.
  set (x1 := N.div x 10). set (x2 := N.div x1 10). set (x3 := N.div x2 10).
  set (x4 := N.div x3 10). set (x5 := N.div x4 10).
  assert (H1 : (10000 <= x1 <= 99999)%N).
  { unfold x1. split; [apply N.div_le_lower_bound; lia |].
    apply N.lt_succ_r, N.Div0.div_lt_upper_bound; lia. }
  assert (H2 : (1000 <= x2 <= 9999)%N).
  { unfold x2. split; [apply N.div_le_lower_bound; lia |].
    apply N.lt_succ_r, N.Div0.div_lt_upper_bound; lia. }
  assert (H3 : (100 <= x3 <= 999)%N).
  { unfold x3. split; [apply N.div_le_lower_bound; lia |].
    apply N.lt_succ_r, N.Div0.div_lt_upper_bound; lia. }
  assert (H4 : (10 <= x4 <= 99)%N).
  { unfold x4. split; [apply N.div_le_lower_bound; lia |].
    apply N.lt_succ_r, N.Div0.div_lt_upper_bound; lia. }
  assert (H5 : (1 <= x5 <= 9)%N).
  { unfold x5. split; [apply N.div_le_lower_bound; lia |].
    apply N.lt_succ_r, N.Div0.div_lt_upper_bound; lia. }
  assert (H6 : N.div x5 10 = 0%N) by (apply N.div_small; lia).
  rewrite (pretty_N_go_step x) by lia. fold x1.
  rewrite (pretty_N_go_step x1) by lia. fold x2.
  rewrite (pretty_N_go_step x2) by lia. fold x3.
  rewrite (pretty_N_go_step x3) by lia. fold x4.
  rewrite (pretty_N_go_step x4) by lia. fold x5.
  rewrite (pretty_N_go_step x5) by lia.
  rewrite H6, pretty_N_go_0. reflexivity.
Qed.

(** A double of numerator below [2^73] has at most twenty bits cut off:
    its rounding stays between the multiples of [2^20] around it. *)
Lemma round53_between m l u :
  0 <= m < 2 ^ 73 -> l * 2 ^ 20 <= m <= u * 2 ^ 20 ->
  l * 2 ^ 20 <= round53 m <= u * 2 ^ 20.
Proof.
  intros Hm Hlu. unfold round53.
  destruct (Z.leb_spec (Z.log2 m - 52) 0) as [Hs | Hs]; [lia |].
  assert (Hsh : Z.log2 m - 52 <= 20).
  { assert (0 < m) by (destruct (decide (m = 0)) as [-> |]; [simpl in Hs |]; lia).
    assert (Z.log2 m < 73) by (apply Z.log2_lt_pow2; lia). lia. }
  set (sh := Z.log2 m - 52) in *.
  assert (Hpow : 2 ^ 20 = 2 ^ (20 - sh) * 2 ^ sh).
  { rewrite <- Z.pow_add_r by lia. f_equal. lia. }
  assert (Hp : 0 < 2 ^ sh) by (apply Z.pow_pos_nonneg; lia).
  assert (Hp' : 0 < 2 ^ (20 - sh)) by (apply Z.pow_pos_nonneg; lia).
  pose proof (Z.div_mod m (2 ^ sh) ltac:(lia)) as Hdiv.
  pose proof (Z.mod_pos_bound m (2 ^ sh) Hp) as Hmod.
  set (q := m / 2 ^ sh) in *. set (rest := m mod 2 ^ sh) in *.
  set (half := 2 ^ (sh - 1)).
  assert (Hhalf : 0 < half) by (apply Z.pow_pos_nonneg; lia).
  rewrite Hpow in Hlu. rewrite Hpow.
  set (L := l * 2 ^ (20 - sh)) in *. set (U := u * 2 ^ (20 - sh)) in *.
  assert (HL : l * (2 ^ (20 - sh) * 2 ^ sh) = L * 2 ^ sh) by (unfold L; ring).
  assert (HU : u * (2 ^ (20 - sh) * 2 ^ sh) = U * 2 ^ sh) by (unfold U; ring).
  rewrite HL, HU in *.
  assert (L <= q) by nia.
  destruct (_ || _) eqn:E.
  - split; [nia |].
    assert (0 < rest).
    { apply orb_true_iff in E as [E | E].
      - apply Z.ltb_lt in E. lia.
      - apply andb_true_iff in E as [E _]. apply Z.eqb_eq in E. lia. }
    assert (q < U) by nia. nia.
  - split; [nia |]. nia.
Qed.

(** The product [Math.random() * 900000] stays one step below 900000:
    the largest draw gives a product that rounds down. *)
Lemma round53_product r :
  0 <= r < 2 ^ 53 ->
  0 <= round53 (r * 900000) <= (900000 * 2 ^ 33 - 1) * 2 ^ 20.
Proof.
  intros Hr. set (m := r * 900000).
  assert (Hm : 0 <= m <= 900000 * 2 ^ 53 - 900000) by (unfold m; lia).
  destruct (decide (m <= (900000 * 2 ^ 33 - 1) * 2 ^ 20)) as [Hle | Hgt].
  - pose proof (round53_between m 0 (900000 * 2 ^ 33 - 1) ltac:(lia) ltac:(lia)).
    lia.
  - assert (Hlog : Z.log2 m = 72) by (apply Z.log2_unique; lia).
    unfold round53. rewrite Hlog.
    change (72 - 52) with 20. change (20 <=? 0) with false. cbv iota.
    assert (Hq : m / 2 ^ 20 = 900000 * 2 ^ 33 - 1).
    { symmetry.
      apply (Z.div_unique m (2 ^ 20) _ (m - (900000 * 2 ^ 33 - 1) * 2 ^ 20)); lia. }
    assert (Hrest : m mod 2 ^ 20 = m - (900000 * 2 ^ 33 - 1) * 2 ^ 20).
    { symmetry. apply (Z.mod_unique m (2 ^ 20) (900000 * 2 ^ 33 - 1)); lia. }
    rewrite Hq, Hrest.
    destruct (Z.ltb_spec (2 ^ (20 - 1)) (m - (900000 * 2 ^ 33 - 1) * 2 ^ 20));
      [lia |].
    destruct (Z.eqb_spec (m - (900000 * 2 ^ 33 - 1) * 2 ^ 20) (2 ^ (20 - 1)));
      [lia |].
    simpl orb. cbv iota. lia.
Qed.

Lemma generateOTP_range r :
  0 <= r < 2 ^ 53 ->
  100000 <= round53 (100000 * 2 ^ 53 + round53 (r * 900000)) / 2 ^ 53 <= 999999.
Proof.
  intros Hr. pose proof (round53_product r Hr) as HA.
  set (A := round53 (r * 900000)) in *.
  pose proof (round53_between (100000 * 2 ^ 53 + A) (100000 * 2 ^ 33)
                (1000000 * 2 ^ 33 - 1) ltac:(lia) ltac:(lia)) as HB.
  set (B := round53 (100000 * 2 ^ 53 + A)) in *.
  split.
  - apply Z.div_le_lower_bound; lia.
  - apply Z.lt_succ_r, Z.div_lt_upper_bound; lia.
Qed.

(** The rounding matters: at this draw exact arithmetic gives 100014. *)
Example generateOTP_rounds_like_a_double :
  generateOTP 150119987579 = "100015" /\
  100000 + 150119987579 * 900000 / 2 ^ 53 = 100014.
Proof. by vm_compute. Qed.

(** X12.  For every draw of [Math.random] (a numerator below [2^53]),
    [generateOTP] is the decimal numeral of an integer between 100000
    and 999999: a string of exactly six characters, hence never empty. *)
Theorem generateOTP_six_digits (r : Z) :
  0 <= r < 2 ^ 53 ->
  exists n, 100000 <= n <= 999999 /\
            generateOTP r = pretty n /\
            String.length (generateOTP r) = 6%nat /\
            truthy_str (Some (generateOTP r)) = true.
Proof.
  intros Hr. pose proof (generateOTP_range r Hr) as Hn.
  exists (round53 (100000 * 2 ^ 53 + round53 (r * 900000)) / 2 ^ 53).
  assert (Hlen : String.length (generateOTP r) = 6%nat).
  { unfold generateOTP. by apply pretty_six_digits. }
  split_and!; [lia | lia | done | done |].
  unfold truthy_str. simpl.
  destruct (generateOTP r); [discriminate | by rewrite bool_decide_eq_false_2].
Qed.

End GeneratedCodes.

Section OTPEdges.
Import OTPService Traces.
Variable verifyPassword : string -> string -> bool.

Lemma supplied_and_verified_empty supplied stored :
  supplied = None \/ supplied = Some "" ->
  supplied_and_verified verifyPassword supplied stored = false.
Proof. by intros [-> | ->]. Qed.

(** X13.  Without a credential nothing validates: a [verifyOTP] whose
    [otp] is missing or the empty string, and a [useOTP] whose
    [verificationToken] is, throw and leave the collection as it was,
    even with a hasher that would accept the empty string. *)
Theorem otp_calls_need_a_credential (s : OTPCollection) (p : OTPVerifyParams) :
  (otp p = None \/ otp p = Some "" ->
   is_ok (verifyOTP verifyPassword p s).1 = false /\
   (verifyOTP verifyPassword p s).2 = s) /\
  (verificationToken p = None \/ verificationToken p = Some "" ->
   is_ok (useOTP verifyPassword p s).1 = false /\
   (useOTP verifyPassword p s).2 = s).
Proof.
  split; intros Hmissing.
  - destruct (verifyOTP_cases verifyPassword p s)
      as [? | (i & r & _ & _ & Hok & _)]; [done |].
    by rewrite supplied_and_verified_empty in Hok.
  - destruct (useOTP_cases verifyPassword p s)
      as [? | (i & r & _ & _ & Hok & _)]; [done |].
    by rewrite supplied_and_verified_empty in Hok.
Qed.


(** X15.  Consumption does not depend on verification: [useOTP] reaches
    the same verdict, the same error or a return, whether the record it
    finds has [isVerified] set, to any value, or not. *)
Theorem useOTP_ignores_isVerified
    (s : OTPCollection) (p : OTPVerifyParams) i r v :
  OTP_findOne (otp_filter p) s = Some (i, r) ->
  same_verdict
    (useOTP verifyPassword p (<[i := <["isVerified" := v]> r]> s)).1
    (useOTP verifyPassword p s).1.
Proof.
  intros Hfind.
  assert (Hfind' : OTP_findOne (otp_filter p) (<[i := <["isVerified" := v]> r]> s)
                   = Some (i, <["isVerified" := v]> r)).
  { eapply findOne_write_back; [done |].
    apply matches_insert_isVerified. by eapply findOne_Some. }
  rewrite (useOTP_found _ _ _ _ _ Hfind), (useOTP_found _ _ _ _ _ Hfind').
  rewrite !lookup_insert_ne by done.
  by repeat case_match.
Qed.

End OTPEdges.

(** * Further properties of the OTP schema *)

Section SchemaCreate.
Variable OTP_EXPIRATION : Z.
















End SchemaCreate.

(** * Further properties of the OTP routes *)

Section OTPRoutes.
Import OTPService AuthController.
Variable Users : Type.
Variable getUser : Users -> option string -> doc -> outcome error (option doc).
Variable OTP_EXPIRATION : Z.
Variable encryptPassword : string -> string.
Variable verifyPassword : string -> string -> bool.

Lemma createOTP_without_user_refused rnd env otpType multiUse (s : OTPCollection) :
  createOTP_without_user OTP_EXPIRATION encryptPassword rnd env otpType multiUse s
  = (Throw (MongooseValidationError
       "OTP validation failed: hashedOTP: Path `hashedOTP` is required."), s).
Proof.
  unfold createOTP_without_user. apply OTP_create_without_hashedOTP.
  rewrite lookup_delete_ne by done.
  by destruct (createOTP_obj_keys (VBool false) otpType
                 (encryptPassword (generateOTP (otp_draw rnd)))
                 (generateOTP (token_draw rnd)) multiUse) as (-> & _).
Qed.

(** X18.  The OTP request route never answers "OTP sent successfully"
    and never stores a record, whatever the users service returns: once
    the account is found, the insertion [createOTP] attempts is refused
    by the schema and the route answers Bad Request. *)
Theorem requestOTP_never_succeeds
    users rnd env email otpType multiUse (s : OTPCollection) :
  is_ok (requestOTP Users getUser OTP_EXPIRATION encryptPassword
           users rnd env email otpType multiUse s).1 = false /\
  (requestOTP Users getUser OTP_EXPIRATION encryptPassword
     users rnd env email otpType multiUse s).2 = s /\
  (forall user,
     getUser users None (<["email" := VStr email]> ∅) = Ok (Some user) ->
     (requestOTP Users getUser OTP_EXPIRATION encryptPassword
        users rnd env email otpType multiUse s).1
     = Throw (BadRequestException
         "OTP validation failed: hashedOTP: Path `hashedOTP` is required.")).
Proof.
  unfold requestOTP, handler, bind, lift, prop.
  destruct (getUser users None _) as [[user |] | e]; simpl; [| done | done].
  destruct (user !! "_id") as [userId |].
  - rewrite createOTP_refused. simpl. split_and!; [done | done |].
    by intros ? [= <-].
  - rewrite createOTP_without_user_refused. simpl. split_and!; [done | done |].
    by intros ? [= <-].
Qed.


End OTPRoutes.

(** * Further properties of the OTP-gated account routes *)

Section AccountRoutes.
Import AuthService AuthController.
Variable Users : Type.
Variable getUser : Users -> option string -> doc -> outcome error (option doc).
Variable save : doc -> M Users unit.
Variable updateUser : option val -> doc -> M Users doc.
Variable StringToNumber : string -> option Z.
Variable DateToString : Z -> string.

(** X20.  [!=] compares two ObjectId objects by identity.  When the
    [userId] of the OTP record and the [_id] of the account are two
    ObjectId instances, [verifyAccount] and [resetPassword] fail with
    Unauthorized and change nothing, also when both instances hold the
    same twenty-four hex digits. *)
Theorem distinct_id_instances_are_rejected
    (users : Users) (otpRecord body user : doc) ref1 hex1 ref2 hex2 :
  getUser users None (set_opt "email" (body !! "email") ∅) = Ok (Some user) ->
  otpRecord !! "userId" = Some (VOid ref1 hex1) ->
  user !! "_id" = Some (VOid ref2 hex2) ->
  ref1 <> ref2 ->
  verifyAccount Users getUser save StringToNumber DateToString
    (Some otpRecord) body users
  = (Throw (UnauthorizedException
       "You're not permitted to carry this out. Request a new otp"), users) /\
  resetPassword Users getUser updateUser StringToNumber DateToString
    (Some otpRecord) body users
  = (Throw (UnauthorizedException
       "You're not permitted to carry this out. Request a new otp"), users).
Proof.
  intros Hu Ho Hi Hne.
  assert (Hneq : loose_neq StringToNumber DateToString
                   (otpRecord !! "userId") (user !! "_id") = true).
  { rewrite Ho, Hi. unfold loose_neq, loose_eq. simpl.
    rewrite bool_decide_eq_false_2; [done | congruence]. }
  unfold verifyAccount, resetPassword, handler, bind, getUser_by_email,
    lift, throw, prop.
  by rewrite Hu, Hneq.
Qed.


End AccountRoutes.

(** * Properties of pagination *)

Section Paging.
Import Pagination.
Variable matching : doc -> bool.
Variable select : list string -> doc -> doc.
Variable sort : option (string * val) -> list doc -> list doc.
(** Sorting neither adds nor drops documents. *)
Hypothesis sort_length : forall o l, length (sort o l) = length l.

Local Abbreviation paginate' := (paginate matching select sort).
Local Abbreviation total model := (Z.of_nat (length (List.filter matching model))).

(** A page lies beyond the last one when the pages before it already
    hold every document. *)
Lemma beyond_last_page (t l p : Z) :
  0 <= t -> 1 <= l -> (ceil_div t l <? p) = (t <=? (p - 1) * l).
Proof.
  intros Ht Hl. unfold ceil_div.
  pose proof (Z.div_mod (- t) l ltac:(lia)) as Hdiv.
  pose proof (Z.mod_pos_bound (- t) l ltac:(lia)) as Hmod.
  destruct (Z.ltb_spec (- (- t / l)) p), (Z.leb_spec t ((p - 1) * l));
    try done; nia.
Qed.

(** The three ways to fail and the one way to return. *)
Lemma paginate_unfold (model : list doc) (o : Options) fields :
  paginate' model o fields =
    if opt_page o <? 1 then Throw (ValidationError "Invalid page number")
    else if opt_limit o <? 1 then Throw (ValidationError "Invalid limit")
    else if (1 <? opt_page o) && (total model <=? (opt_page o - 1) * opt_limit o)
    then Throw (NotFoundError "Page not found")
    else
      let found := sort (sortOptions_of o) (List.filter matching model) in
      let page_docs :=
        map (select fields)
          (take (Z.to_nat (opt_limit o))
             (drop (Z.to_nat ((opt_page o - 1) * opt_limit o)) found)) in
      Ok {| docs := page_docs;
            totalDocs := total model;
            next := if opt_page o * opt_limit o <=? total model
                    then Some (opt_page o + 1) else None;
            prev := if 1 <? opt_page o then Some (opt_page o - 1) else None;
            limit := opt_limit o;
            page := opt_page o;
            totalPages := ceil_div (total model) (opt_limit o) |}.
Proof.
  unfold paginate.
  destruct (Z.ltb_spec (opt_page o) 1) as [Hp | Hp]; [done |].
  destruct (Z.ltb_spec (opt_limit o) 1) as [Hl | Hl]; [done |].
  rewrite beyond_last_page by lia.
  destruct (_ && _); [done |]. simpl. do 2 f_equal.
  rewrite length_map, length_take, length_drop, sort_length.
  assert (Hmul : opt_page o * opt_limit o
                 = (opt_page o - 1) * opt_limit o + opt_limit o) by ring.
  assert (Hskip : 0 <= (opt_page o - 1) * opt_limit o) by nia.
  destruct (Z.eqb_spec
              (Z.of_nat (Z.to_nat (opt_limit o)
                 `min` (length (List.filter matching model)
                        - Z.to_nat ((opt_page o - 1) * opt_limit o))))
              (opt_limit o)),
    (Z.leb_spec (opt_page o * opt_limit o) (total model)); try done; lia.
Qed.

Lemma paginate_succeeds_iff_aux (model : list doc) (o : Options) fields :
  (is_ok (paginate' model o fields) = true <->
   1 <= opt_page o /\ 1 <= opt_limit o /\
   (opt_page o = 1 \/ (opt_page o - 1) * opt_limit o < total model)) /\
  (opt_page o < 1 ->
   paginate' model o fields = Throw (ValidationError "Invalid page number")) /\
  (1 <= opt_page o -> opt_limit o < 1 ->
   paginate' model o fields = Throw (ValidationError "Invalid limit")) /\
  (1 < opt_page o -> 1 <= opt_limit o ->
   total model <= (opt_page o - 1) * opt_limit o ->
   paginate' model o fields = Throw (NotFoundError "Page not found")).
Proof.
  rewrite paginate_unfold.
  destruct (Z.ltb_spec (opt_page o) 1) as [Hp | Hp];
    [split_and!; try done; try lia; split; [done | lia] |].
  destruct (Z.ltb_spec (opt_limit o) 1) as [Hl | Hl];
    [split_and!; try done; try lia; split; [done | lia] |].
  destruct (Z.ltb_spec 1 (opt_page o)) as [H1 | H1],
    (Z.leb_spec (total model) ((opt_page o - 1) * opt_limit o)) as [Ht | Ht];
    simpl; split_and!; try done; try lia; split; try done; try lia.
Qed.

(** X22.  [paginate] returns exactly when the page number and the limit
    are at least 1 and the page is the first one or starts before the
    end of the matching documents; in particular the first page of an
    empty result is returned, not refused.  Otherwise it throws
    "Invalid page number", else "Invalid limit", else "Page not found". *)
Theorem paginate_succeeds_iff (model : list doc) (o : Options) fields :
  (is_ok (paginate' model o fields) = true <->
   1 <= opt_page o /\ 1 <= opt_limit o /\
   (opt_page o = 1 \/ (opt_page o - 1) * opt_limit o < total model)) /\
  (opt_page o < 1 ->
   paginate' model o fields = Throw (ValidationError "Invalid page number")) /\
  (1 <= opt_page o -> opt_limit o < 1 ->
   paginate' model o fields = Throw (ValidationError "Invalid limit")) /\
  (1 < opt_page o -> 1 <= opt_limit o ->
   total model <= (opt_page o - 1) * opt_limit o ->
   paginate' model o fields = Throw (NotFoundError "Page not found")).
Proof. exact (paginate_succeeds_iff_aux model o fields). Qed.

(** X23.  A returned page holds the documents from position
    [(page - 1) * limit] on, at most [limit] of them: their number is
    the smaller of [limit] and what is left from there.  [totalDocs]
    counts all matching documents, whatever the page, and [totalPages]
    is the least number of pages of [limit] documents that hold them
    all: one page less would not. *)
Theorem paginate_page_size (model : list doc) (o : Options) fields r :
  paginate' model o fields = Ok r ->
  Z.of_nat (length (docs r))
  = Z.min (opt_limit o)
      (Z.max 0 (total model - (opt_page o - 1) * opt_limit o)) /\
  totalDocs r = total model /\
  total model <= totalPages r * opt_limit o /\
  (totalPages r - 1) * opt_limit o < total model /\
  (forall n, total model <= n * opt_limit o -> totalPages r <= n).
Proof.
  rewrite paginate_unfold.
  destruct (Z.ltb_spec (opt_page o) 1) as [Hp | Hp]; [done |].
  destruct (Z.ltb_spec (opt_limit o) 1) as [Hl | Hl]; [done |].
  destruct (_ && _); [done |]. intros [= <-]. simpl.
  rewrite length_map, length_take, length_drop, sort_length.
  unfold ceil_div.
  pose proof (Z.div_mod (- total model) (opt_limit o) ltac:(lia)) as Hdiv.
  pose proof (Z.mod_pos_bound (- total model) (opt_limit o) ltac:(lia)) as Hmod.
  split_and!; [nia | done | nia | nia |].
  intros n Hn. nia.
Qed.

(** Pieces of [l] taken [n] at a time, [k] pieces in all. *)
Lemma chunks_concat {A B} (f : A -> B) (l : list A) (n k : nat) :
  concat (map (fun i => map f (take n (drop (i * n) l))) (seq 0 k))
  = map f (take (k * n) l).
Proof.
  induction k as [| k IH]; [done |].
  rewrite seq_S, List.map_app, concat_app, IH. simpl.
  rewrite app_nil_r, <- List.map_app. f_equal.
  rewrite take_take_drop. f_equal. lia.
Qed.

(** X24.  Reading the pages [1 .. totalPages] one after the other
    yields every matching document exactly once, in sorted order: no
    page is refused, none overlaps the next and nothing is left out. *)
Theorem pages_cover_everything (model : list doc) (o : Options) fields :
  1 <= opt_limit o ->
  pages_upto matching select sort model o fields
    (Z.to_nat (ceil_div (total model) (opt_limit o)))
  = map (select fields) (sort (sortOptions_of o) (List.filter matching model)).
Proof.
  intros Hl. unfold pages_upto.
  set (n := Z.to_nat (opt_limit o)).
  set (pages := Z.to_nat (ceil_div (total model) (opt_limit o))).
  set (found := sort (sortOptions_of o) (List.filter matching model)).
  assert (Hpages : total model <= Z.of_nat pages * opt_limit o /\
                   (Z.of_nat pages - 1) * opt_limit o < total model + opt_limit o
                   /\ (0 < total model -> (Z.of_nat pages - 1) * opt_limit o < total model)).
  { unfold pages, ceil_div.
    pose proof (Z.div_mod (- total model) (opt_limit o) ltac:(lia)) as Hdiv.
    pose proof (Z.mod_pos_bound (- total model) (opt_limit o) ltac:(lia)) as Hmod.
    assert (0 <= - (- total model / opt_limit o)) by nia.
    rewrite Z2Nat.id by done. split_and!; nia. }
  destruct Hpages as (Hcover & Hnear & Hlast).
  rewrite (map_ext_in _ (fun i => map (select fields) (take n (drop (i * n) found)))).
  - rewrite chunks_concat. f_equal. apply take_ge.
    unfold found. rewrite sort_length. unfold n. nia.
  - intros i Hi%in_seq. unfold page_docs. rewrite paginate_unfold. simpl.
    assert (Hskip : Z.to_nat ((Z.of_nat (S i) - 1) * opt_limit o) = (i * n)%nat).
    { replace (Z.of_nat (S i) - 1) with (Z.of_nat i) by lia.
      rewrite Z2Nat.inj_mul by lia. by rewrite Nat2Z.id. }
    assert (Hbefore : (Z.of_nat (S i) - 1) * opt_limit o
                      <= (Z.of_nat pages - 1) * opt_limit o) by nia.
    rewrite Hskip.
    destruct (Z.ltb_spec (Z.of_nat (S i)) 1) as [? | _]; [lia |].
    destruct (Z.ltb_spec (opt_limit o) 1) as [? | _]; [lia |].
    destruct (Z.ltb_spec 1 (Z.of_nat (S i))) as [H1 | H1],
      (Z.leb_spec (total model) ((Z.of_nat (S i) - 1) * opt_limit o)) as [Ht | Ht];
      simpl; try done.
    exfalso. destruct (decide (0 < total model)) as [Hpos | Hzero].
    + specialize (Hlast Hpos). lia.
    + assert (1 * opt_limit o <= (Z.of_nat pages - 1) * opt_limit o) by nia. lia.
Qed.

(** X25.  [next] is announced exactly when the page is full, that is,
    when [page * limit] does not exceed the number of matching
    documents.  A following page exists only when it is strictly below
    that number: when the last page is full, [next] names a page whose
    request throws "Page not found". *)
Theorem paginate_next (model : list doc) (o : Options) fields r :
  paginate' model o fields = Ok r ->
  next r = (if opt_page o * opt_limit o <=? total model
            then Some (opt_page o + 1) else None) /\
  (opt_page o * opt_limit o < total model ->
   is_ok (paginate' model (at_page o (opt_page o + 1)) fields) = true) /\
  (opt_page o * opt_limit o = total model ->
   next r = Some (opt_page o + 1) /\
   paginate' model (at_page o (opt_page o + 1)) fields
   = Throw (NotFoundError "Page not found")).
Proof.
  intros H.
  assert (Hok : is_ok (paginate' model o fields) = true) by by rewrite H.
  apply paginate_succeeds_iff_aux in Hok as (Hp & Hl & _).
  rewrite paginate_unfold in H.
  destruct (Z.ltb_spec (opt_page o) 1) as [? | _]; [lia |].
  destruct (Z.ltb_spec (opt_limit o) 1) as [? | _]; [lia |].
  destruct (_ && _); [done |]. injection H as <-. simpl.
  split_and!.
  - done.
  - intros Hlt. apply paginate_succeeds_iff_aux. simpl. split_and!; lia.
  - intros Heq. split.
    + destruct (Z.leb_spec (opt_page o * opt_limit o) (total model)); [done | lia].
    + apply paginate_succeeds_iff_aux; simpl; lia.
Qed.

(** X26.  [prev] is [page - 1] on every page but the first, where it is
    [null], and the page it names is never refused. *)
Theorem paginate_prev (model : list doc) (o : Options) fields r :
  paginate' model o fields = Ok r ->
  prev r = (if 1 <? opt_page o then Some (opt_page o - 1) else None) /\
  (forall q, prev r = Some q ->
     is_ok (paginate' model (at_page o q) fields) = true).
Proof.
  intros H.
  assert (Hok : is_ok (paginate' model o fields) = true) by by rewrite H.
  apply paginate_succeeds_iff_aux in Hok as (Hp & Hl & Hstart).
  rewrite paginate_unfold in H.
  destruct (Z.ltb_spec (opt_page o) 1) as [? | _]; [lia |].
  destruct (Z.ltb_spec (opt_limit o) 1) as [? | _]; [lia |].
  destruct (_ && _); [done |]. injection H as <-. simpl.
  split; [done |]. intros q Hq.
  destruct (Z.ltb_spec 1 (opt_page o)) as [H1 | H1]; [| done].
  injection Hq as <-. apply paginate_succeeds_iff_aux. simpl.
  split_and!; [lia | lia |].
  destruct Hstart as [? | Hstart]; [lia |].
  destruct (decide (opt_page o - 1 = 1)); [by left | right; nia].
Qed.

End Paging.

(** * Logout is not rolled back *)

Section LogoutPartial.
Import AuthService AuthController.

(** X27.  When [logout] has blacklisted the access token and the
    refresh token is then refused, because it is empty (Bad Request) or
    already blacklisted (Conflict), the access token stays blacklisted.
    Every later [logout] with that access token is a Conflict at its
    first step, so it blacklists no refresh token. *)
Theorem logout_is_not_rolled_back access_token refresh_token (db : AuthDb) :
  access_token <> "" ->
  access_token ∉ blacklistAccessModel db ->
  refresh_token = "" \/ refresh_token ∈ blacklistRefreshModel db ->
  let db' := {| blacklistAccessModel :=
                  (blacklistAccessModel db ++ [access_token])%list;
                blacklistRefreshModel := blacklistRefreshModel db |} in
  (exists x, logout access_token refresh_token db = (Throw x, db') /\
     (refresh_token = "" -> x = BadRequestException "Path `token` is required.") /\
     (refresh_token <> "" -> x = ConflictException "Token already blacklisted")) /\
  isTokenBlacklisted access_token "access" db' = true /\
  (forall other_token,
     logout access_token other_token db'
     = (Throw (ConflictException "Token already blacklisted"), db')).
Proof.
  intros Hne Hnew Hrefused db'.
  assert (Hin : access_token ∈ blacklistAccessModel db').
  { simpl. apply elem_of_app. right. by apply list_elem_of_singleton. }
  split_and!.
  - unfold logout, handler, bind.
    rewrite blacklistToken_access_new by done. fold db'.
    destruct (decide (refresh_token = "")) as [-> | Hr].
    + exists (BadRequestException "Path `token` is required."). by split_and!.
    + destruct Hrefused as [? | Hdup]; [done |].
      rewrite blacklistToken_refresh_again by done.
      exists (ConflictException "Token already blacklisted"). by split_and!.
  - rewrite isTokenBlacklisted_access. by apply bool_decide_eq_true_2.
  - intros other_token. unfold logout, handler, bind.
    by rewrite blacklistToken_access_again.
Qed.

End LogoutPartial.

(** * Instances on the concrete collaborators *)

Lemma blacklistToken_then_isTokenBlacklisted_witness :
  AuthService.isTokenBlacklisted "access.token" "access" Fixture.db1 = true /\
  AuthService.isTokenBlacklisted "access.token" "refresh" Fixture.db1
  = AuthService.isTokenBlacklisted "access.token" "refresh" Fixture.db0.
Proof.
  pose proof (blacklistToken_then_isTokenBlacklisted "access.token" "access"
                Fixture.db0 Fixture.db1 eq_refl) as (_ & Hnow & Hother).
  assert (Hm : "refresh" <> "access") by discriminate.
  exact (conj Hnow (Hother "access.token" "refresh" (or_intror Hm))).
Defined.

Lemma blacklists_stay_unique_witness :
  Traces.blacklists_unique Fixture.db2 /\
  Traces.blacklists_unique
    (Traces.run_auth_calls "key" "HS256" "key" "7d" "1h"
       Fixture.signAsync Fixture.verify (list doc) Fixture.getUser
       Fixture.toISOString [Fixture.alice] Fixture.some_calls Fixture.db2).
Proof.
  assert (Hu : Traces.blacklists_unique Fixture.db2)
    by (split; apply NoDup_singleton).
  exact (conj Hu (blacklists_stay_unique "key" "HS256" "key" "7d" "1h"
    Fixture.signAsync Fixture.verify (list doc) Fixture.getUser
    Fixture.toISOString [Fixture.alice] Fixture.some_calls Fixture.db2 Hu)).
Defined.

Lemma blacklisted_stays_blacklisted_witness :
  AuthService.isTokenBlacklisted "refresh.token" "refresh"
    (Traces.run_auth_calls "key" "HS256" "key" "7d" "1h"
       Fixture.signAsync Fixture.verify (list doc) Fixture.getUser
       Fixture.toISOString [Fixture.alice] Fixture.some_calls Fixture.db3)
  = true.
Proof.
  exact (blacklisted_stays_blacklisted "key" "HS256" "key" "7d" "1h"
    Fixture.signAsync Fixture.verify (list doc) Fixture.getUser
    Fixture.toISOString [Fixture.alice] Fixture.some_calls Fixture.db3
    "refresh.token" "refresh" eq_refl eq_refl).
Defined.

Lemma logout_revokes_refresh_token_witness :
  AuthService.refreshTokens "key" "HS256" "key" "7d" "1h"
    Fixture.signAsync Fixture.verify (list doc) Fixture.getUser
    Fixture.toISOString [Fixture.alice] 9000 "refresh.token" Fixture.db2
  = (Throw (UnauthorizedError "Invalid token"), Fixture.db2).
Proof.
  exact (proj1 (logout_revokes_refresh_token "key" "HS256" "key" "7d" "1h"
    Fixture.signAsync Fixture.verify (list doc) Fixture.getUser
    Fixture.toISOString [Fixture.alice] 9000 "access.token" "refresh.token"
    "other.token" Fixture.db0 Fixture.db2 "Successfully logged out" eq_refl)).
Defined.

Lemma logout_is_not_rolled_back_witness :
  AuthController.logout "access.token" "next.token" Fixture.db2
  = (Throw (ConflictException "Token already blacklisted"), Fixture.db2).
Proof.
  assert (Hne : "access.token" <> "") by discriminate.
  assert (Hnew : "access.token" ∉ AuthService.blacklistAccessModel Fixture.db3)
    by apply not_elem_of_nil.
  assert (Hdup : "refresh.token" ∈ AuthService.blacklistRefreshModel Fixture.db3)
    by (apply list_elem_of_singleton; reflexivity).
  pose proof (logout_is_not_rolled_back "access.token" "refresh.token"
                Fixture.db3 Hne Hnew (or_intror Hdup)) as (_ & _ & Hretry).
  exact (Hretry "next.token").
Defined.

Lemma getTokens_announced_times_witness :
  exists issued,
    issued <= 5000 < issued + 1000 /\
    AuthService.access_exp Fixture.alice_tokens
    = Fixture.toISOString (issued + 3600000).
Proof.
  destruct (getTokens_announced_times "HS256" "key" "7d" "1h"
              Fixture.signAsync Fixture.toISOString Fixture.alice 5000
              Fixture.alice_tokens eq_refl)
    as (issued & Hclock & _ & _ & _ & Hexp & _).
  exists issued. exact (conj Hclock Hexp).
Defined.

Lemma refreshTokens_returns_only_if_witness :
  AuthService.isTokenBlacklisted "refresh.token" "refresh" Fixture.db0 = false.
Proof.
  exact (proj1 (refreshTokens_returns_only_if "key" "HS256" "key" "7d" "1h"
    Fixture.signAsync Fixture.verify (list doc) Fixture.getUser
    Fixture.toISOString [Fixture.alice] 5000 "refresh.token" Fixture.db0
    Fixture.db3 Fixture.alice_tokens eq_refl)).
Defined.

Lemma issued_access_token_cannot_refresh_witness :
  AuthService.refreshTokens "key" "HS256" "key" "7d" "1h"
    Fixture.sign_typed Fixture.verify_typed (list doc) Fixture.getUser
    Fixture.toISOString [Fixture.alice] 9000
    (AuthService.accessToken Fixture.alice_typed_tokens) Fixture.db0
  = (Throw (UnauthorizedError "Invalid token"), Fixture.db0).
Proof.
  assert (Hlib : forall payload o token c decoded,
            Fixture.sign_typed payload o = Ok token ->
            Fixture.verify_typed token
              (AuthService.refresh_verify_options "key" "HS256" "7d") c
            = Ok decoded ->
            decoded !! "type" = payload !! "type").
  { intros payload o token c decoded. unfold Fixture.sign_typed.
    destruct (payload !! "type") as [[| | ty | |] |]; try discriminate.
    destruct (payload !! "sub") as [[| | sub | |] |]; try discriminate.
    repeat case_bool_decide; try discriminate; subst;
      intros [= <-]; unfold Fixture.verify_typed; simpl;
      destruct sub; simpl; intros [= <-]; by rewrite lookup_insert_eq. }
  exact (issued_access_token_cannot_refresh "key" "HS256" "key" "7d" "1h"
    Fixture.sign_typed Fixture.verify_typed (list doc) Fixture.getUser
    Fixture.toISOString Fixture.alice 5000 Fixture.alice_typed_tokens
    [Fixture.alice] 9000 Fixture.db0 Hlib eq_refl).
Defined.

Lemma generateOTP_six_digits_witness :
  String.length (OTPService.generateOTP (2 ^ 52)) = 6%nat.
Proof.
  assert (Hr : 0 <= 2 ^ 52 < 2 ^ 53) by lia.
  destruct (generateOTP_six_digits (2 ^ 52) Hr) as (n & _ & _ & Hlen & _).
  exact Hlen.
Defined.

Lemma useOTP_ignores_isVerified_witness :
  Traces.same_verdict
    (OTPService.useOTP Fixture.verifyPassword Fixture.otp_params
       (<[1%nat := <["isVerified" := VBool true]> (Fixture.otp_record true 900000)]>
          Fixture.live_store)).1
    (OTPService.useOTP Fixture.verifyPassword Fixture.otp_params
       Fixture.live_store).1.
Proof.
  exact (useOTP_ignores_isVerified Fixture.verifyPassword Fixture.live_store
    Fixture.otp_params 1%nat (Fixture.otp_record true 900000) (VBool true)
    eq_refl).
Defined.


Lemma distinct_id_instances_are_rejected_witness :
  AuthController.verifyAccount (list doc) Fixture.getUser Fixture.save
    Fixture.StringToNumber Fixture.DateToString
    (Some (Fixture.otp_record false 900000)) Fixture.alice_body [Fixture.alice]
  = (Throw (UnauthorizedException
       "You're not permitted to carry this out. Request a new otp"),
     [Fixture.alice]).
Proof.
  assert (Hne : 2%nat <> 1%nat) by discriminate.
  exact (proj1 (distinct_id_instances_are_rejected (list doc) Fixture.getUser
    Fixture.save Fixture.updateUser Fixture.StringToNumber Fixture.DateToString
    [Fixture.alice] (Fixture.otp_record false 900000) Fixture.alice_body
    Fixture.alice 2%nat Fixture.user_hex 1%nat Fixture.user_hex
    eq_refl eq_refl eq_refl Hne)).
Defined.


Lemma paginate_succeeds_iff_witness :
  Pagination.paginate Fixture.match_all Fixture.select_all Fixture.sort_none
    Fixture.five_docs (Fixture.page_options 4 2) []
  = Throw (NotFoundError "Page not found").
Proof.
  apply (proj2 (proj2 (proj2 (paginate_succeeds_iff Fixture.match_all
    Fixture.select_all Fixture.sort_none (fun _ _ => eq_refl)
    Fixture.five_docs (Fixture.page_options 4 2) [])))); simpl; lia.
Defined.

Lemma paginate_page_size_witness :
  exists r,
    Pagination.paginate Fixture.match_all Fixture.select_all Fixture.sort_none
      Fixture.five_docs (Fixture.page_options 3 2) [] = Ok r /\
    Z.of_nat (length (Pagination.docs r)) = 1 /\
    (Pagination.totalPages r - 1) * 2 < 5 <= Pagination.totalPages r * 2.
Proof.
  destruct (Pagination.paginate Fixture.match_all Fixture.select_all
              Fixture.sort_none Fixture.five_docs (Fixture.page_options 3 2) [])
    as [r | e] eqn:Hpage; [| discriminate].
  pose proof (paginate_page_size Fixture.match_all Fixture.select_all
                Fixture.sort_none (fun _ _ => eq_refl) Fixture.five_docs
                (Fixture.page_options 3 2) [] r Hpage)
    as (Hlen & _ & Hcover & Htight & _).
  exists r. split; [reflexivity |]. split; [exact Hlen |].
  exact (conj Htight Hcover).
Defined.

Lemma pages_cover_everything_witness :
  Pagination.pages_upto Fixture.match_all Fixture.select_all Fixture.sort_none
    Fixture.five_docs (Fixture.page_options 1 2) [] 3
  = Fixture.five_docs.
Proof.
  assert (Hl : 1 <= Pagination.opt_limit (Fixture.page_options 1 2))
    by (simpl; lia).
  pose proof (pages_cover_everything Fixture.match_all Fixture.select_all
                Fixture.sort_none (fun _ _ => eq_refl) Fixture.five_docs
                (Fixture.page_options 1 2) [] Hl) as Hcover.
  vm_compute in Hcover. vm_compute. exact Hcover.
Defined.

Lemma paginate_next_witness :
  Pagination.paginate Fixture.match_all Fixture.select_all Fixture.sort_none
    Fixture.five_docs (Fixture.page_options 2 5) []
  = Throw (NotFoundError "Page not found").
Proof.
  destruct (Pagination.paginate Fixture.match_all Fixture.select_all
              Fixture.sort_none Fixture.five_docs (Fixture.page_options 1 5) [])
    as [r | e] eqn:Hpage; [| discriminate].
  pose proof (paginate_next Fixture.match_all Fixture.select_all
                Fixture.sort_none (fun _ _ => eq_refl) Fixture.five_docs
                (Fixture.page_options 1 5) [] r Hpage) as (_ & _ & Hfull).
  exact (proj2 (Hfull eq_refl)).
Defined.

Lemma paginate_prev_witness :
  is_ok (Pagination.paginate Fixture.match_all Fixture.select_all
           Fixture.sort_none Fixture.five_docs (Fixture.page_options 2 2) [])
  = true.
Proof.
  destruct (Pagination.paginate Fixture.match_all Fixture.select_all
              Fixture.sort_none Fixture.five_docs (Fixture.page_options 3 2) [])
    as [r | e] eqn:Hpage; [| discriminate].
  pose proof (paginate_prev Fixture.match_all Fixture.select_all
                Fixture.sort_none (fun _ _ => eq_refl) Fixture.five_docs
                (Fixture.page_options 3 2) [] r Hpage) as (Hprev & Hexists).
  apply (Hexists 2). rewrite Hprev. reflexivity.
Defined.
